(** * caddy-dnslink: the DNSLink handler of [dnslink.go]

    A shallow embedding of the request handler [ServeHTTP], of the cached
    lookup [resolve] behind it and of the path that a matching request is
    rewritten to, followed by the properties of the handler that the
    specification states. *)

From Stdlib Require Import ZArith String Ascii List Bool Lia.
From stdpp Require Import base option list gmap strings.

Local Open Scope string_scope.

(** ** Go's [strings] helpers used by the handler

    A Go string is a sequence of bytes, here a [string] of [ascii]
    characters.  The three functions follow the Go library's bodies:
    a length test followed by the comparison of a slice. *)
Module Strings.

(** [len(s) >= len(prefix) && s[:len(prefix)] == prefix] *)
Definition HasPrefix (s prefix : string) : bool :=
  (String.length prefix <=? String.length s)%nat
  && String.eqb (substring 0 (String.length prefix) s) prefix.

(** [len(s) >= len(suffix) && s[len(s)-len(suffix):] == suffix] *)
Definition HasSuffix (s suffix : string) : bool :=
  (String.length suffix <=? String.length s)%nat
  && String.eqb
       (substring (String.length s - String.length suffix)
                  (String.length suffix) s)
       suffix.

(** [if HasPrefix(s, prefix) { return s[len(prefix):] }; return s] *)
Definition TrimPrefix (s prefix : string) : string :=
  if HasPrefix s prefix
  then substring (String.length prefix)
                 (String.length s - String.length prefix) s
  else s.

End Strings.

Import Strings.

(** ** Data *)

(** A [time.Time] and a [time.Duration] are a number of nanoseconds, an
    unbounded integer [Z]. *)

(** The value kept in [d.cache] for a host. *)
Record cachedLookup := mkCachedLookup {
  namespace : string;
  identifier : string;
  expiresAt : Z;
}.

(** The handler.  [proxies] maps a prefix to the reverse proxy that
    [Provision] built for it, which is named here by the upstream it dials.
    The field [cache] is the one part that requests change: it lives in the
    [State] below.  The logger is left out: it only receives debug lines. *)
Record DNSLink := mkDNSLink {
  Upstreams : gmap string string;
  Replacements : gmap string string;
  CacheTTL : Z;
  proxies : gmap string string;
}.

(** The part of [*http.Request] that the handler reads and writes:
    [r.Host] and [r.URL.Path]. *)
Record Request := mkRequest {
  Host : string;
  Path : string;
}.

(** How [ServeHTTP] ends: with [return next.ServeHTTP(w, r)] or with
    [return proxy.ServeHTTP(w, r, next)], each shown with the request as it is
    at that moment. *)
Inductive Handled :=
| next_ServeHTTP (r : Request)
| proxy_ServeHTTP (proxy : string) (r : Request).

(** *** The DNSLink library, as far as [resolve] uses it *)

(** An entry of [result.Links]; only [Identifier] is read. *)
Record NamespaceEntry := mkEntry {
  Identifier : string;
}.

(** [result.Links] is a Go map from a namespace to its entries, and [resolve]
    only ever ranges over it.  It is listed here in the order in which that
    [range] statement visits it: the keys are distinct, and Go leaves the order
    open, so the same map may come as any permutation of the list. *)
Record Result := mkResult {
  Links : list (string * list NamespaceEntry);
}.

(** Modelled from the spec: the values of Go's [error] interface that the
    DNSLink library returns are declared outside this repository; the spec
    (section 6) sorts them into "no record found" and "other failure". *)
Inductive error :=
| NoRecordFound
| OtherFailure (msg : string).

(** What one call of [dnslinkpkg.Resolve] gives back: Go's pair of a result
    and an error, and the time the call took. *)
Record Reply := mkReply {
  result : Result;
  err : option error;
  took : Z;
}.

(** ** State and effects *)

(** What a request can observe and change: the cache of the handler, the
    wall clock, and the DNS calls made so far (the most recent first). *)
Record State := mkState {
  cache : gmap string cachedLookup;
  clock : Z;
  dnsCalls : list string;
}.

(** Computations that read and change the [State]. *)
Definition M (A : Type) : Type := State -> A * State.

#[export] Instance M_ret : MRet M := fun A (a : A) s => (a, s).
#[export] Instance M_bind : MBind M :=
  fun A B (k : A -> M B) (m : M A) s => let '(a, s') := m s in k a s'.

(** [time.Now()] *)
Definition timeNow : M Z := fun s => (clock s, s).

(** [d.cache.Load(host)] *)
Definition cacheLoad (host : string) : M (option cachedLookup) :=
  fun s => (cache s !! host, s).

(** [d.cache.Delete(host)] *)
Definition cacheDelete (host : string) : M unit :=
  fun s => (tt, mkState (delete host (cache s)) (clock s) (dnsCalls s)).

(** [d.cache.Store(host, entry)] *)
Definition cacheStore (host : string) (entry : cachedLookup) : M unit :=
  fun s => (tt, mkState (<[host := entry]> (cache s)) (clock s) (dnsCalls s)).

(** ** The rewritten path (ServeHTTP, lines 104-127) *)

(** The path a matching request is forwarded with.  [replacements] is the
    handler's table [d.Replacements], [prefix] is ["/" + namespace],
    [identifier] comes from the lookup and [originalPath] is [r.URL.Path]. *)
Definition newPath (replacements : gmap string string)
    (prefix identifier originalPath : string) : string :=
  (* Start with replacement or prefix *)
  let base := match replacements !! prefix with
              | Some replacement => replacement
              | None => prefix
              end in
  (* Ensure base ends with / *)
  let base := if negb (HasSuffix base "/") then base ++ "/" else base in
  (* Add identifier *)
  let newPath := base ++ identifier in
  (* Ensure identifier part ends with / *)
  let newPath :=
    if negb (HasSuffix newPath "/") then newPath ++ "/" else newPath in
  (* Append original path (stripped of leading /) *)
  let cleanOriginal := TrimPrefix originalPath "/" in
  newPath ++ cleanOriginal.

(** [buildPath] is the entry point that [dnslink_test.go] exercises, with
    four strings; its [replacement] argument is documented there as "empty
    means use prefix (namespace)".  The handler builds the path inline, from
    its [Replacements] table, into which [parseCaddyfile] puts a replacement
    only when it is not empty (lines 218-220).  So [buildPath] is [newPath]
    under the table that such a configuration gives for the one prefix. *)
Definition buildPath (namespace identifier replacement originalPath : string)
    : string :=
  let prefix := "/" ++ namespace in
  let replacements : gmap string string :=
    if String.eqb replacement "" then ∅ else {[ prefix := replacement ]} in
  newPath replacements prefix identifier originalPath.

(** Names for two intermediate values of [newPath], used to state its
    properties: a string with ["/"] appended unless it already ends with it
    (lines 112-114 and 120-122), and the base that [buildPath] starts from. *)
Definition ensureSlash (s : string) : string :=
  if negb (HasSuffix s "/") then s ++ "/" else s.

Definition baseOf (namespace replacement : string) : string :=
  ensureSlash (if String.eqb replacement "" then "/" ++ namespace
               else replacement).

(** ** The lookup and the handler *)

(** The loop of [resolve] (lines 157-165): the first namespace visited that
    has an entry, with the identifier of its first entry; both stay empty
    when no namespace has one. *)
Fixpoint selectLink (links : list (string * list NamespaceEntry))
    : string * string :=
  match links with
  | [] => ("", "")
  | (ns, entries) :: rest =>
      match entries with
      | e :: _ => (ns, Identifier e)
      | [] => selectLink rest
      end
  end.

Section Handler.

(** The two functions the handler calls outside this repository:
    [net.SplitHostPort], which gives the host and the port or fails, and
    [dnslinkpkg.Resolve], whose reply may change from one call to the next
    and so depends on the number of calls made before. *)
Variable SplitHostPort : string -> option (string * string).
Variable dnslinkpkg_Resolve : nat -> string -> Reply.

(** [dnslinkpkg.Resolve(host)]: the call is recorded and the clock moves on
    by the time the call took. *)
Definition dnslinkResolve (host : string) : M (Result * option error) :=
  fun s =>
    let reply := dnslinkpkg_Resolve (List.length (dnsCalls s)) host in
    ((result reply, err reply),
     mkState (cache s) (clock s + took reply)%Z (host :: dnsCalls s)).

(** [resolve] (lines 139-175).  The first step is the cache lookup of lines
    140-146, which either has the entry to return or falls through, having
    deleted an entry that is no longer fresh. *)
Definition resolve (d : DNSLink) (host : string)
    : M (string * string * option error) :=
  val ← cacheLoad host;
  hit ← match val with
        | Some entry =>
            now ← timeNow;
            if (now <? expiresAt entry)%Z then mret (Some entry)
            else cacheDelete host;; mret None
        | None => mret None
        end;
  match hit with
  | Some entry => mret (namespace entry, identifier entry, None)
  | None =>
      '(result, err) ← dnslinkResolve host;
      match err with
      | Some _ =>
          (* "we return empty string without error" *)
          mret ("", "", None)
      | None =>
          let '(namespace, identifier) := selectLink (Links result) in
          now ← timeNow;
          cacheStore host
            (mkCachedLookup namespace identifier (now + CacheTTL d)%Z);;
          mret (namespace, identifier, None)
      end
  end.

(** The host that is looked up (lines 82-85). *)
Definition lookupHost (r : Request) : string :=
  match SplitHostPort (Host r) with
  | Some (h, _) => h
  | None => Host r
  end.

(** [ServeHTTP] (lines 80-137). *)
Definition ServeHTTP (d : DNSLink) (r : Request) : M Handled :=
  let host := lookupHost r in
  '(namespace, identifier, err) ← resolve d host;
  match err with
  | Some _ => mret (next_ServeHTTP r)
  | None =>
      if String.eqb namespace "" then mret (next_ServeHTTP r)
      else
        let prefix := "/" ++ namespace in
        match proxies d !! prefix with
        | Some proxy =>
            let newPath :=
              newPath (Replacements d) prefix identifier (Path r) in
            mret (proxy_ServeHTTP proxy (mkRequest (Host r) newPath))
        | None => mret (next_ServeHTTP r)
        end
  end.

End Handler.

(** The entry of [host] that a lookup in state [s] would return: the cached
    one, when the clock has not reached its expiry (lines 140-143).  It is
    used to state the properties of [resolve], which does not call it. *)
Definition freshEntry (s : State) (host : string) : option cachedLookup :=
  match cache s !! host with
  | Some entry => if (clock s <? expiresAt entry)%Z then Some entry else None
  | None => None
  end.

(** The number of DNS calls that a computation makes when it runs in [s]. *)
Definition dnsCallsOf {A : Type} (m : M A) (s : State) : nat :=
  (List.length (dnsCalls (m s).2) - List.length (dnsCalls s))%nat.

(** A namespace without entries is skipped by the loop of [resolve]. *)
Definition noCandidate (l : string * list NamespaceEntry) : Prop := l.2 = [].

(** ** A configuration and some DNS replies to run the handler on *)
Module Fixture.

(** The configuration of the README: [/swarm /bzz varnish:8080],
    [/ipfs ipfs:8080] and [cache_ttl 5m]. *)
Definition handler : DNSLink :=
  mkDNSLink
    {[ "/swarm" := "varnish:8080"; "/ipfs" := "ipfs:8080" ]}
    {[ "/swarm" := "/bzz" ]}
    300000000000
    {[ "/swarm" := "varnish:8080"; "/ipfs" := "ipfs:8080" ]}.

(** A request for [example.com], which has no port: [net.SplitHostPort]
    fails on such a host. *)
Definition noPort (hostport : string) : option (string * string) := None.

Definition request : Request := mkRequest "example.com" "/index.html".

(** An empty cache at time 0, before any DNS call. *)
Definition start : State := mkState ∅ 0 [].

(** Collaborators that answer every call the same way, after 5 ns: with a
    failure of the transport, with "no record found", with a result that has
    no link, and with one link or two. *)
Definition failing (n : nat) (host : string) : Reply :=
  mkReply (mkResult []) (Some (OtherFailure "i/o timeout")) 5.

Definition noRecord (n : nat) (host : string) : Reply :=
  mkReply (mkResult []) (Some NoRecordFound) 5.

Definition noLinks (n : nat) (host : string) : Reply :=
  mkReply (mkResult []) None 5.

Definition swarmLink (n : nat) (host : string) : Reply :=
  mkReply (mkResult [("swarm", [mkEntry "abc123"])]) None 5.

Definition ipfsFirst : list (string * list NamespaceEntry) :=
  [("ipfs", [mkEntry "QmXyz789"]); ("swarm", [mkEntry "abc123"])].

Definition swarmFirst : list (string * list NamespaceEntry) :=
  [("swarm", [mkEntry "abc123"]); ("ipfs", [mkEntry "QmXyz789"])].

(** A state whose cache holds an entry for [example.com] that expired at
    time 10, seen at time 20. *)
Definition expired : State :=
  mkState {[ "example.com" := mkCachedLookup "swarm" "abc123" 10 ]} 20 [].

End Fixture.

(** ** Requests one after the other *)
Section Serving.

Variable SplitHostPort : string -> option (string * string).
Variable dnslinkpkg_Resolve : nat -> string -> Reply.

(** Time passes before a request arrives. *)
Definition arrive (dt : Z) (s : State) : State :=
  mkState (cache s) (clock s + dt)%Z (dnsCalls s).

(** The server hands the requests to [ServeHTTP] one after the other, each
    some time after the one before; what is kept is the state they leave. *)
Definition serveAll (d : DNSLink) (requests : list (Z * Request))
    (s : State) : State :=
  foldl (fun s '(dt, r) =>
           (ServeHTTP SplitHostPort dnslinkpkg_Resolve d r (arrive dt s)).2)
        s requests.

End Serving.

(** ** Provision (lines 56-78) *)

(** [time.Minute], in nanoseconds. *)
Definition Minute : Z := 60000000000.

Section Provisioning.

(** [rp.Provision(ctx)] of the reverse proxy that dials [upstream], outside
    this repository: the message of the error it returns, if any. *)
Variable rpProvision : string -> option string.

(** The loop of lines 64-76 over [d.Upstreams], a Go map, given as the list
    of its entries in the order of the visit.  It stops at the first reverse
    proxy that fails, with the error of line 73. *)
Fixpoint provisionProxies (visit : list (string * string))
    (proxies : gmap string string) : gmap string string * option string :=
  match visit with
  | [] => (proxies, None)
  | (prefix, upstream) :: rest =>
      match rpProvision upstream with
      | Some err =>
          (proxies,
           Some ("provisioning reverse proxy for " ++ prefix ++ ": " ++ err))
      | None => provisionProxies rest (<[prefix := upstream]> proxies)
      end
  end.

(** [Provision]: the handler as the call leaves it, and the error returned. *)
Definition Provision (visit : list (string * string)) (d : DNSLink)
    : DNSLink * option string :=
  let CacheTTL := if (CacheTTL d =? 0)%Z then (1 * Minute)%Z else CacheTTL d in
  let '(proxies, err) := provisionProxies visit ∅ in
  (mkDNSLink (Upstreams d) (Replacements d) CacheTTL proxies, err).

End Provisioning.

(** ** parseCaddyfile (lines 187-237) *)

(** The directive reaches [parseCaddyfile] through the dispenser [h] of
    Caddy, which is outside this repository.  The input is kept here as what
    the dispenser hands out, call by call: for each run of the loop
    [h.NextBlock(1)] the token [h.Val()] and the tokens that [h.NextArg()]
    loads after it; for each run of [h.NextBlock(0)] the token, the
    arguments after it and the runs of the inner loop; for each run of
    [h.Next()] the runs of the loop inside. *)
Record ProxyEntry := mkProxyEntry {
  entryPrefix : string;
  entryArgs : list string;
}.

Record Subdirective := mkSubdirective {
  subName : string;
  subArgs : list string;
  subEntries : list ProxyEntry;
}.

(** The errors that [parseCaddyfile] returns: [h.ArgErr()], the error of
    [caddy.ParseDuration], and [h.Errf("unknown subdirective '%s'", ...)]. *)
Inductive parseError :=
| ArgErr
| DurationErr (msg : string)
| UnknownSubdirective (name : string).

Section Caddyfile.

(** [caddy.ParseDuration], outside this repository: the duration in
    nanoseconds, or the message of the error. *)
Variable ParseDuration : string -> Z + string.

(** One run of the loop over the [proxies] block (lines 197-220). *)
Definition proxyLine (d : DNSLink) (e : ProxyEntry) : parseError + DNSLink :=
  let prefix := entryPrefix e in
  match entryArgs e with
  | [] => inl ArgErr
  | arg2 :: more =>
      let '(upstream, replacement) :=
        match more with
        | arg3 :: _ =>
            (* 3 arguments: prefix replacement upstream *)
            (arg3, arg2)
        | [] =>
            (* 2 arguments: prefix upstream *)
            (arg2, "")
        end in
      let upstream := TrimPrefix upstream "http://" in
      let upstream := TrimPrefix upstream "https://" in
      let upstreams := <[prefix := upstream]> (Upstreams d) in
      let replacements :=
        if negb (String.eqb replacement "")
        then <[prefix := replacement]> (Replacements d)
        else Replacements d in
      inr (mkDNSLink upstreams replacements (CacheTTL d) (proxies d))
  end.

Fixpoint proxiesBlock (d : DNSLink) (entries : list ProxyEntry)
    : parseError + DNSLink :=
  match entries with
  | [] => inr d
  | e :: rest =>
      match proxyLine d e with
      | inl err => inl err
      | inr d' => proxiesBlock d' rest
      end
  end.

(** One run of the loop [h.NextBlock(0)]: the [switch] of lines 194-233. *)
Definition subdirective (d : DNSLink) (sub : Subdirective)
    : parseError + DNSLink :=
  if String.eqb (subName sub) "proxies" then
    proxiesBlock d (subEntries sub)
  else if String.eqb (subName sub) "cache_ttl" then
    match subArgs sub with
    | [] => inl ArgErr
    | val :: _ =>
        match ParseDuration val with
        | inr msg => inl (DurationErr msg)
        | inl dur =>
            inr (mkDNSLink (Upstreams d) (Replacements d) dur (proxies d))
        end
    end
  else inl (UnknownSubdirective (subName sub)).

Fixpoint subdirectives (d : DNSLink) (subs : list Subdirective)
    : parseError + DNSLink :=
  match subs with
  | [] => inr d
  | sub :: rest =>
      match subdirective d sub with
      | inl err => inl err
      | inr d' => subdirectives d' rest
      end
  end.

(** The loop [h.Next()] over the occurrences of the directive. *)
Fixpoint directives (d : DNSLink) (blocks : list (list Subdirective))
    : parseError + DNSLink :=
  match blocks with
  | [] => inr d
  | subs :: rest =>
      match subdirectives d subs with
      | inl err => inl err
      | inr d' => directives d' rest
      end
  end.

(** [parseCaddyfile]: it starts from a new handler with two empty tables. *)
Definition parseCaddyfile (blocks : list (list Subdirective))
    : parseError + DNSLink :=
  directives (mkDNSLink ∅ ∅ 0 ∅) blocks.

End Caddyfile.

(** Names for the values of the locals [upstream] and [replacement] of a run
    of the [proxies] loop when line 216 is reached, used to state what the
    run stores. *)
Definition entryUpstream (e : ProxyEntry) : string :=
  match entryArgs e with
  | [] => ""
  | [arg2] => TrimPrefix (TrimPrefix arg2 "http://") "https://"
  | _ :: arg3 :: _ => TrimPrefix (TrimPrefix arg3 "http://") "https://"
  end.

Definition entryReplacement (e : ProxyEntry) : string :=
  match entryArgs e with
  | arg2 :: _ :: _ => arg2
  | _ => ""
  end.

(** The inputs on which [parseCaddyfile] returns no error: every run of the
    [proxies] loop has an argument, every [cache_ttl] has one that
    [caddy.ParseDuration] accepts, and there is no other subdirective. *)
Definition subAccepted (ParseDuration : string -> Z + string)
    (sub : Subdirective) : bool :=
  if String.eqb (subName sub) "proxies" then
    forallb (fun e => negb (Nat.eqb (List.length (entryArgs e)) 0))
            (subEntries sub)
  else if String.eqb (subName sub) "cache_ttl" then
    match subArgs sub with
    | [] => false
    | val :: _ => match ParseDuration val with inl _ => true | inr _ => false end
    end
  else false.

(** ** The Caddyfile of the README, as the dispenser hands it out *)
Module Config.

Definition readme : list (list Subdirective) :=
  [ [ mkSubdirective "proxies" []
        [ mkProxyEntry "/swarm" ["/bzz"; "varnish:8080"];
          mkProxyEntry "/ipfs" ["ipfs:8080"] ];
      mkSubdirective "cache_ttl" ["5m"] [] ] ].

(** [caddy.ParseDuration] on the one duration of that file. *)
Definition fiveMinutes (val : string) : Z + string :=
  if String.eqb val "5m" then inl 300000000000%Z
  else inr "time: invalid duration".

(** Reverse proxies that all provision, and ones that fail for one
    upstream. *)
Definition provisions (upstream : string) : option string := None.

Definition failsFor (bad upstream : string) : option string :=
  if String.eqb upstream bad then Some "invalid dial address" else None.

(** A DNS reply with a link in a namespace that the README leaves out. *)
Definition ipnsLink (n : nat) (host : string) : Reply :=
  mkReply (mkResult [("ipns", [mkEntry "example.org"])]) None 5.

(** A handler read from JSON whose table of replacements holds the empty
    string for [/ipfs], and a DNS reply with a link in that namespace. *)
Definition emptyReplacement : DNSLink :=
  mkDNSLink {[ "/ipfs" := "ipfs:8080" ]} {[ "/ipfs" := "" ]} 300000000000
            {[ "/ipfs" := "ipfs:8080" ]}.

Definition ipfsLink (n : nat) (host : string) : Reply :=
  mkReply (mkResult [("ipfs", [mkEntry "QmXyz789"])]) None 5.

(** A handler whose cache is switched off by a negative TTL. *)
Definition uncached : DNSLink :=
  mkDNSLink {[ "/swarm" := "varnish:8080" ]} ∅ (-1)
            {[ "/swarm" := "varnish:8080" ]}.

End Config.

(** Unfolds the steps of the state monad in [resolve] and [ServeHTTP]. *)
Ltac unfold_steps :=
  unfold mbind, M_bind, mret, M_ret, cacheLoad, cacheDelete, cacheStore,
    dnslinkResolve, timeNow.
Ltac unfold_resolve := unfold resolve; unfold_steps.
Ltac unfold_ServeHTTP := unfold ServeHTTP; unfold_steps.

(** ** Facts about the string helpers at the separator ["/"] *)
Section StringFacts.

Lemma substring_whole (s : string) :
  substring 0 (String.length s) s = s.
Proof. induction s as [|c s IH]; simpl; [reflexivity | now rewrite IH]. Qed.

Lemma HasSuffix_empty : HasSuffix "" "/" = false.
Proof. reflexivity. Qed.

Lemma HasSuffix_single (c : ascii) :
  HasSuffix (String c "") "/" = Ascii.eqb c "/".
Proof.
  unfold HasSuffix; simpl. destruct (Ascii.eqb c "/"); reflexivity.
Qed.

Lemma HasSuffix_cons (c : ascii) (s : string) :
  s <> "" -> HasSuffix (String c s) "/" = HasSuffix s "/".
Proof.
  destruct s as [|d s]; [congruence|]; intros _.
  unfold HasSuffix; simpl. now rewrite !Nat.sub_0_r.
Qed.

Lemma HasSuffix_app (a b : string) :
  b <> "" -> HasSuffix (a ++ b) "/" = HasSuffix b "/".
Proof.
  intros Hb. induction a as [|c a IH]; [reflexivity|].
  change (String c a ++ b) with (String c (a ++ b)).
  rewrite HasSuffix_cons; [exact IH|].
  destruct a; simpl; [exact Hb | discriminate].
Qed.

Lemma HasSuffix_app_slash (s : string) : HasSuffix (s ++ "/") "/" = true.
Proof. now rewrite HasSuffix_app. Qed.

(** A string has the suffix ["/"] exactly when it is some string followed
    by that one byte. *)
Lemma HasSuffix_slash_iff (s : string) :
  HasSuffix s "/" = true <-> exists t, s = t ++ "/".
Proof.
  split.
  - induction s as [|c s IH]; [discriminate|].
    destruct s as [|d s].
    + rewrite HasSuffix_single. intros H%Ascii.eqb_eq. subst c.
      now exists "".
    + rewrite HasSuffix_cons by discriminate. intros [t Ht]%IH.
      exists (String c t). simpl. now rewrite Ht.
  - intros [t ->]. apply HasSuffix_app_slash.
Qed.

Lemma HasPrefix_slash_cons (c : ascii) (s : string) :
  HasPrefix (String c s) "/" = Ascii.eqb c "/".
Proof.
  unfold HasPrefix; simpl.
  destruct (Ascii.eqb c "/"); [|reflexivity]. now destruct s.
Qed.

Lemma TrimPrefix_empty : TrimPrefix "" "/" = "".
Proof. reflexivity. Qed.

Lemma TrimPrefix_slash (p : string) : TrimPrefix (String "/" p) "/" = p.
Proof.
  unfold TrimPrefix. rewrite HasPrefix_slash_cons. simpl.
  rewrite Nat.sub_0_r. apply substring_whole.
Qed.

Lemma TrimPrefix_other (c : ascii) (p : string) :
  c <> "/"%char -> TrimPrefix (String c p) "/" = String c p.
Proof.
  intros Hc. unfold TrimPrefix. rewrite HasPrefix_slash_cons.
  now apply Ascii.eqb_neq in Hc as ->.
Qed.

(** [TrimPrefix _ "/"] by cases on the first byte. *)
Lemma TrimPrefix_slash_cases (s : string) :
  TrimPrefix s "/" =
  match s with
  | String c p => if Ascii.eqb c "/" then p else s
  | EmptyString => ""
  end.
Proof.
  destruct s as [|c p]; [reflexivity|].
  destruct (Ascii.eqb_spec c "/") as [->|Hne].
  - apply TrimPrefix_slash.
  - now apply TrimPrefix_other.
Qed.

End StringFacts.

(** ** The rewritten path *)
Section PathFacts.

Lemma append_cons (c : ascii) (a b : string) :
  String c a ++ b = String c (a ++ b).
Proof. reflexivity. Qed.

Lemma append_empty_r (s : string) : s ++ "" = s.
Proof.
  induction s as [|c s IH]; [reflexivity | now rewrite append_cons, IH].
Qed.

Lemma append_assoc (a b c : string) : (a ++ b) ++ c = a ++ b ++ c.
Proof.
  induction a as [|x a IH]; [reflexivity | now rewrite !append_cons, IH].
Qed.

Lemma append_length (a b : string) :
  String.length (a ++ b) = (String.length a + String.length b)%nat.
Proof.
  induction a as [|x a IH]; [reflexivity|].
  rewrite append_cons. simpl. now rewrite IH.
Qed.

Lemma ensureSlash_suffix (s : string) : HasSuffix (ensureSlash s) "/" = true.
Proof.
  unfold ensureSlash. destruct (HasSuffix s "/") eqn:E; simpl;
    [exact E | apply HasSuffix_app_slash].
Qed.

Lemma ensureSlash_slash (s : string) : ensureSlash (s ++ "/") = s ++ "/".
Proof. unfold ensureSlash. now rewrite HasSuffix_app_slash. Qed.

(** [newPath] in one line: the base, the identifier, a separator where one is
    missing, and the original path without its first ["/"]. *)
Lemma newPath_unfold (replacements : gmap string string)
    (prefix id path : string) :
  newPath replacements prefix id path =
  ensureSlash (ensureSlash (default prefix (replacements !! prefix)) ++ id)
  ++ TrimPrefix path "/".
Proof. unfold newPath, ensureSlash. now destruct (replacements !! prefix). Qed.

Lemma buildPath_unfold (ns id repl path : string) :
  buildPath ns id repl path =
  ensureSlash (baseOf ns repl ++ id) ++ TrimPrefix path "/".
Proof.
  unfold buildPath, baseOf. rewrite newPath_unfold.
  destruct (String.eqb repl "").
  - now rewrite lookup_empty.
  - now rewrite lookup_singleton_eq.
Qed.

Lemma baseOf_suffix (ns repl : string) : HasSuffix (baseOf ns repl) "/" = true.
Proof. apply ensureSlash_suffix. Qed.

(** After the base, the separator is missing exactly when the identifier is
    not empty and does not end with it. *)
Lemma HasSuffix_base_identifier (ns repl id : string) :
  HasSuffix (baseOf ns repl ++ id) "/" =
  if String.eqb id "" then true else HasSuffix id "/".
Proof.
  destruct id as [|c id].
  - rewrite append_empty_r. apply baseOf_suffix.
  - now rewrite HasSuffix_app.
Qed.

(** C7: of the original path only one leading ["/"] is dropped.  The part of
    the result before it, [head], does not depend on the original path and
    ends with the separator: it is the base followed by the identifier, and
    by ["/"] when the identifier is not empty and does not end with one.  An
    empty original path adds nothing to [head], the same as ["/"]; after one
    leading ["/"] the rest of the path follows unchanged, further leading
    slashes included; a path that starts with another byte follows whole. *)
Theorem buildPath_original_path (ns id repl : string) :
  let head := ensureSlash (baseOf ns repl ++ id) in
  buildPath ns id repl "" = head
  /\ buildPath ns id repl "/" = head
  /\ HasSuffix head "/" = true
  /\ head = (if String.eqb id "" || HasSuffix id "/"
             then baseOf ns repl ++ id
             else baseOf ns repl ++ id ++ "/")
  /\ (forall p, buildPath ns id repl (String "/" p) = head ++ p)
  /\ (forall p, buildPath ns id repl (String "/" (String "/" p))
                = head ++ String "/" p)
  /\ (forall c p, buildPath ns id repl (String c p)
                  = head ++ (if Ascii.eqb c "/" then p else String c p)).
Proof.
  intros head. subst head.
  repeat split; intros; rewrite ?buildPath_unfold.
  - now rewrite TrimPrefix_empty, append_empty_r.
  - now rewrite TrimPrefix_slash, append_empty_r.
  - apply ensureSlash_suffix.
  - unfold ensureSlash at 1. rewrite HasSuffix_base_identifier.
    destruct id as [|c id]; [reflexivity|]. simpl.
    destruct (HasSuffix (String c id) "/"); simpl;
      [reflexivity | apply append_assoc].
  - now rewrite TrimPrefix_slash.
  - now rewrite TrimPrefix_slash.
  - now rewrite TrimPrefix_slash_cases.
Qed.

(** C6, as the code has it: nothing is taken off the identifier.  An
    identifier that ends with ["/"] is kept whole and followed directly by
    the original path.  So the result for [id ++ "/"] is the result for [id]
    exactly when [id] is not empty and does not end with ["/"] itself, which
    are the identifiers after which the code adds the separator. *)
Theorem buildPath_trailing_slash (ns id repl path : string) :
  buildPath ns (id ++ "/") repl path
  = baseOf ns repl ++ id ++ "/" ++ TrimPrefix path "/"
  /\ (buildPath ns (id ++ "/") repl path = buildPath ns id repl path
      <-> id <> "" /\ HasSuffix id "/" = false).
Proof.
  assert (Hl : buildPath ns (id ++ "/") repl path
               = (baseOf ns repl ++ id ++ "/") ++ TrimPrefix path "/").
  { rewrite buildPath_unfold, <- append_assoc, ensureSlash_slash.
    now rewrite append_assoc. }
  split; [now rewrite Hl, !append_assoc|].
  rewrite Hl, buildPath_unfold. unfold ensureSlash.
  rewrite HasSuffix_base_identifier.
  destruct (String.eqb_spec id "") as [->|Hne].
  - simpl. split; [|now intros [[] _]].
    intros H%(f_equal String.length). rewrite !append_length in H.
    simpl in H. lia.
  - destruct (HasSuffix id "/"); simpl.
    + split; [|now intros [_ [=]]].
      intros H%(f_equal String.length). rewrite !append_length in H.
      simpl in H. lia.
    + split; [auto|]. intros _. now rewrite !append_assoc.
Qed.

End PathFacts.

(** The table of [TestBuildPath] in [dnslink_test.go], all fourteen rows. *)
Example TestBuildPath :
  Forall (fun '(ns, id, repl, path, expected) =>
            buildPath ns id repl path = expected)
    [ ("swarm", "abc123", "/bzz", "/", "/bzz/abc123/");
      ("swarm", "abc123", "/bzz", "/index.html", "/bzz/abc123/index.html");
      ("swarm", "abc123", "/bzz", "/assets/style.css",
       "/bzz/abc123/assets/style.css");
      ("ipfs", "QmXyz789", "", "/", "/ipfs/QmXyz789/");
      ("ipfs", "QmXyz789", "", "/readme.md", "/ipfs/QmXyz789/readme.md");
      ("swarm", "abc123/subdir", "/bzz", "/file.txt",
       "/bzz/abc123/subdir/file.txt");
      ("swarm", "abc123", "/bzz", "", "/bzz/abc123/");
      ("swarm", "abc123/", "/bzz", "/index.html", "/bzz/abc123/index.html");
      ("swarm", "abc123", "/bzz", "file.txt", "/bzz/abc123/file.txt");
      ("swarm",
       "d1e8b6f5a3c2b9e4d7f0a1b2c3d4e5f6a7b8c9d0e1f2a3b4c5d6e7f8a9b0c1d2",
       "/bzz", "/",
       "/bzz/d1e8b6f5a3c2b9e4d7f0a1b2c3d4e5f6a7b8c9d0e1f2a3b4c5d6e7f8a9b0c1d2/");
      ("swarm", "abc123", "bzz", "/index.html", "bzz/abc123/index.html");
      ("swarm", "abc123", "/bzz/", "/index.html", "/bzz/abc123/index.html");
      ("swarm", "abc123", "/bzz", "//index.html", "/bzz/abc123//index.html");
      ("swarm", "abc123", "/bzz", "/page?foo=bar", "/bzz/abc123/page?foo=bar")
    ].
Proof. repeat constructor. Qed.

(** A table written as JSON can hold an empty replacement, which
    [parseCaddyfile] never stores.  The handler then starts from the empty
    base, not from the prefix. *)
Remark newPath_empty_replacement :
  newPath {[ "/ipfs" := "" ]} "/ipfs" "QmXyz789" "/readme.md"
  = "/QmXyz789/readme.md"
  /\ newPath ∅ "/ipfs" "QmXyz789" "/readme.md" = "/ipfs/QmXyz789/readme.md".
Proof. split; vm_compute; reflexivity. Qed.

(** The result that C6 gives for an identifier with one trailing ["/"],
    at the identifier of the tests. *)
Lemma buildPath_trailing_slash_witness :
  buildPath "swarm" ("abc123" ++ "/") "/bzz" "/index.html"
  = buildPath "swarm" "abc123" "/bzz" "/index.html".
Proof.
  apply (proj2 (buildPath_trailing_slash "swarm" "abc123" "/bzz" "/index.html")).
  split; [discriminate | reflexivity].
Defined.

(** C6 as the specification states it fails for an identifier that ends with
    two slashes, and for the identifier ["/"]: the result keeps both. *)
Lemma buildPath_trailing_slash_kept :
  buildPath "swarm" "abc123//" "/bzz" "/index.html" = "/bzz/abc123//index.html"
  /\ buildPath "swarm" "abc123/" "/bzz" "/index.html" = "/bzz/abc123/index.html"
  /\ buildPath "swarm" "/" "/bzz" "/index.html" = "/bzz//index.html"
  /\ buildPath "swarm" "" "/bzz" "/index.html" = "/bzz/index.html"
  /\ ~ (forall ns id repl path,
          buildPath ns (id ++ "/") repl path = buildPath ns id repl path).
Proof.
  repeat split; try (vm_compute; reflexivity).
  intros H. specialize (H "swarm" "abc123/" "/bzz" "/index.html").
  vm_compute in H. discriminate.
Qed.

(** ** The lookup *)

(** When an entry counts as fresh. *)
Lemma freshEntry_Some (s : State) (host : string) (e : cachedLookup) :
  freshEntry s host = Some e <->
  cache s !! host = Some e /\ (clock s < expiresAt e)%Z.
Proof.
  unfold freshEntry.
  destruct (cache s !! host) as [e'|];
    [|split; [intros [=] | intros [[=] _]]].
  destruct (Z.ltb_spec (clock s) (expiresAt e')); split.
  - intros [= ->]. auto.
  - now intros [[= ->] _].
  - discriminate.
  - intros [[= ->] ?]. lia.
Qed.

Lemma freshEntry_None (s : State) (host : string) :
  freshEntry s host = None <->
  cache s !! host = None \/
  exists e, cache s !! host = Some e /\ (expiresAt e <= clock s)%Z.
Proof.
  unfold freshEntry.
  destruct (cache s !! host) as [e'|]; [|split; [now left | reflexivity]].
  destruct (Z.ltb_spec (clock s) (expiresAt e')); split.
  - discriminate.
  - intros [[=] | (e & [= ->] & ?)]. lia.
  - right. eauto.
  - reflexivity.
Qed.

Section ResolveFacts.

Variable SplitHostPort : string -> option (string * string).
Variable dnslinkpkg_Resolve : nat -> string -> Reply.

Abbreviation resolve := (resolve dnslinkpkg_Resolve).
Abbreviation ServeHTTP := (ServeHTTP SplitHostPort dnslinkpkg_Resolve).
Abbreviation lookupHost := (lookupHost SplitHostPort).

(** The reply that a DNS call made in state [s] receives. *)
Abbreviation replyAt s host :=
  (dnslinkpkg_Resolve (List.length (dnsCalls s)) host).

(** A fresh entry is returned as it is; the state does not change. *)
Lemma resolve_hit (d : DNSLink) (host : string) (s : State) (e : cachedLookup) :
  freshEntry s host = Some e ->
  resolve d host s = ((namespace e, identifier e, None), s).
Proof.
  intros [Hc Ht]%freshEntry_Some.
  unfold_resolve. rewrite Hc. now apply Z.ltb_lt in Ht as ->.
Qed.

(** Without a fresh entry the DNS call is made.  A failed call leaves the
    cache without an entry for the host; a call that succeeds stores the
    selected link, with the expiry counted from the clock after the call. *)
Lemma resolve_miss (d : DNSLink) (host : string) (s : State) :
  freshEntry s host = None ->
  resolve d host s =
  let reply := replyAt s host in
  let now := (clock s + took reply)%Z in
  match err reply with
  | Some _ =>
      (("", "", None),
       mkState (delete host (cache s)) now (host :: dnsCalls s))
  | None =>
      let '(ns, id) := selectLink (Links (result reply)) in
      ((ns, id, None),
       mkState (<[host := mkCachedLookup ns id (now + CacheTTL d)]> (cache s))
               now (host :: dnsCalls s))
  end.
Proof.
  intros Hf. unfold freshEntry in Hf.
  unfold_resolve.
  destruct (cache s !! host) as [e|] eqn:Hc; simpl.
  - destruct (clock s <? expiresAt e)%Z; [discriminate|]. simpl.
    destruct (err (replyAt s host)); [reflexivity|].
    destruct (selectLink _) as [ns id]. simpl.
    now rewrite insert_delete_eq.
  - rewrite (delete_id _ _ Hc).
    destruct (err (replyAt s host)); [reflexivity|].
    now destruct (selectLink _) as [ns id].
Qed.

(** [resolve] has an error in its result type and never returns one. *)
Lemma resolve_no_error (d : DNSLink) (host : string) (s : State) :
  (resolve d host s).1.2 = None.
Proof.
  destruct (freshEntry s host) as [e|] eqn:Hf.
  - now rewrite (resolve_hit _ _ _ _ Hf).
  - rewrite (resolve_miss _ _ _ Hf). simpl.
    destruct (err _); [reflexivity|]. now destruct (selectLink _).
Qed.

(** Without a fresh entry exactly one DNS call is made, for the host, and the
    clock moves on by the time it took. *)
Lemma resolve_miss_dnsCalls (d : DNSLink) (host : string) (s : State) :
  freshEntry s host = None ->
  dnsCalls (resolve d host s).2 = host :: dnsCalls s
  /\ clock (resolve d host s).2 = (clock s + took (replyAt s host))%Z.
Proof.
  intros Hf. rewrite (resolve_miss _ _ _ Hf). simpl.
  destruct (err (replyAt s host)); [now split|].
  now destruct (selectLink _).
Qed.

(** The handler in terms of what [resolve] returned. *)
Lemma ServeHTTP_unfold (d : DNSLink) (r : Request) (s : State) :
  ServeHTTP d r s =
  let '((ns, id, _), s') := resolve d (lookupHost r) s in
  (if String.eqb ns "" then next_ServeHTTP r
   else match proxies d !! ("/" ++ ns) with
        | Some proxy =>
            proxy_ServeHTTP proxy
              (mkRequest (Host r)
                 (newPath (Replacements d) ("/" ++ ns) id (Path r)))
        | None => next_ServeHTTP r
        end,
   s').
Proof.
  unfold_ServeHTTP.
  pose proof (resolve_no_error d (lookupHost r) s) as He.
  destruct (resolve d (lookupHost r) s) as [[[ns id] e] s']. simpl in He.
  subst e. destruct (String.eqb ns ""); [reflexivity|].
  now destruct (proxies d !! _).
Qed.

(** *** The selection among the namespaces *)

Lemma selectLink_none (links : list (string * list NamespaceEntry)) :
  Forall noCandidate links -> selectLink links = ("", "").
Proof.
  induction 1 as [|[ns entries] links Hx _ IH]; [reflexivity|].
  unfold noCandidate in Hx. simpl in *. now subst entries.
Qed.

Lemma selectLink_first (skipped rest : list (string * list NamespaceEntry))
    (ns : string) (e : NamespaceEntry) (es : list NamespaceEntry) :
  Forall noCandidate skipped ->
  selectLink (skipped ++ (ns, e :: es) :: rest) = (ns, Identifier e).
Proof.
  induction 1 as [|[ns' entries] skipped Hx _ IH]; [reflexivity|].
  unfold noCandidate in Hx. simpl in *. now subst entries.
Qed.

(** When at most one namespace has an entry, the order of the visit does
    not matter. *)
Lemma selectLink_Permutation
    (links1 links2 : list (string * list NamespaceEntry)) :
  links1 ≡ₚ links2 ->
  (forall l l', In l links1 -> In l' links1 ->
                ~ noCandidate l -> ~ noCandidate l' -> l = l') ->
  selectLink links1 = selectLink links2.
Proof.
  unfold noCandidate.
  induction 1
    as [|[ns es] l l' Hp IH|[ns es] [ns' es'] l|l l' l'' Hp IH Hp' IH'];
    intros Huniq.
  - reflexivity.
  - simpl. destruct es; [|reflexivity].
    apply IH. intros a b Ha Hb. apply Huniq; now right.
  - simpl. destruct es as [|e es], es' as [|e' es']; try reflexivity.
    assert (Heq : (ns', e' :: es') = (ns, e :: es)).
    { apply Huniq; simpl; auto; discriminate. }
    now inversion Heq.
  - rewrite IH by exact Huniq. apply IH'.
    intros a b Ha Hb.
    apply Huniq; apply (Permutation_in _ (Permutation_sym Hp)); assumption.
Qed.

(** *** What the handler guarantees *)

(** C2: the handler fails open.  [resolve] never returns an error.  When the
    DNS call of a request fails, whatever the error, or succeeds with a
    result in which no namespace has an entry, and whenever the namespace
    that [resolve] returns is empty, the handler ends with
    [next.ServeHTTP(w, r)] on the request it was given. *)
Theorem ServeHTTP_fails_open (d : DNSLink) (r : Request) (s : State) :
  let host := lookupHost r in
  let reply := replyAt s host in
  (resolve d host s).1.2 = None
  /\ (freshEntry s host = None -> err reply <> None ->
      ServeHTTP d r s = (next_ServeHTTP r, (resolve d host s).2))
  /\ (freshEntry s host = None -> err reply = None ->
      Forall noCandidate (Links (result reply)) ->
      ServeHTTP d r s = (next_ServeHTTP r, (resolve d host s).2))
  /\ ((resolve d host s).1.1.1 = "" ->
      ServeHTTP d r s = (next_ServeHTTP r, (resolve d host s).2)).
Proof.
  intros host reply.
  assert (Hempty : (resolve d host s).1.1.1 = "" ->
                   ServeHTTP d r s = (next_ServeHTTP r, (resolve d host s).2)).
  { rewrite ServeHTTP_unfold. fold host.
    destruct (resolve d host s) as [[[ns id] e] s']. simpl.
    now intros ->. }
  split; [apply resolve_no_error|].
  repeat split; [| |exact Hempty]; intros Hf He; [|intros Hl];
    apply Hempty; rewrite (resolve_miss _ _ _ Hf); simpl; fold reply.
  - now destruct (err reply).
  - rewrite He, (selectLink_none _ Hl). reflexivity.
Qed.

(** C3, as the code has it.  A reply without error in which no namespace has
    an entry is cached: [resolve] stores the empty namespace and identifier
    for the host, to expire one TTL after the clock at the write, and returns
    them with no error; as long as the cache holds that entry and the clock
    is before its expiry, a request for the host makes no DNS call, changes
    nothing and is passed on.  A reply with an error (so also "no record
    found") gives the same empty result and the request is passed on, but
    nothing is stored: the next lookup of the host calls DNS again. *)
Theorem resolve_negative_cache (d : DNSLink) (host : string) (s : State) :
  let reply := replyAt s host in
  let s1 := (resolve d host s).2 in
  freshEntry s host = None ->
  (err reply = None -> Forall noCandidate (Links (result reply)) ->
     (resolve d host s).1 = ("", "", None)
     /\ cache s1 !! host = Some (mkCachedLookup "" "" (clock s1 + CacheTTL d))
     /\ (forall r s2, lookupHost r = host ->
           cache s2 !! host = cache s1 !! host ->
           (clock s2 < clock s1 + CacheTTL d)%Z ->
           ServeHTTP d r s2 = (next_ServeHTTP r, s2)))
  /\ (forall e, err reply = Some e ->
       (resolve d host s).1 = ("", "", None)
       /\ cache s1 !! host = None
       /\ (forall r, lookupHost r = host ->
             (ServeHTTP d r s).1 = next_ServeHTTP r)
       /\ (forall s2, cache s2 !! host = cache s1 !! host ->
             dnsCalls (resolve d host s2).2 = host :: dnsCalls s2)).
Proof.
  intros reply s1 Hf. subst s1. rewrite (resolve_miss _ _ _ Hf).
  fold reply. split.
  - intros He Hl. simpl. rewrite He, (selectLink_none _ Hl). simpl.
    split; [reflexivity|]. split; [apply lookup_insert_eq|].
    intros r s2 Hr Hc Ht. rewrite lookup_insert_eq in Hc.
    assert (Hf2 : freshEntry s2 host
                  = Some (mkCachedLookup "" ""
                            (clock s + took reply + CacheTTL d))).
    { apply freshEntry_Some. split; [exact Hc | exact Ht]. }
    rewrite ServeHTTP_unfold, Hr, (resolve_hit _ _ _ _ Hf2). reflexivity.
  - intros e He. simpl. rewrite He. simpl.
    split; [reflexivity|]. split; [apply lookup_delete_eq|]. split.
    + intros r Hr. rewrite ServeHTTP_unfold, Hr, (resolve_miss _ _ _ Hf).
      simpl. fold reply. now rewrite He.
    + intros s2 Hc. rewrite lookup_delete_eq in Hc.
      assert (Hf2 : freshEntry s2 host = None).
      { apply freshEntry_None. now left. }
      apply (resolve_miss_dnsCalls _ _ _ Hf2).
Qed.

(** C4, as the code has it.  When the DNS call fails, [resolve] returns the
    empty namespace and identifier and no error; the cache has no entry for
    the host afterwards and its other entries are as before; the handler
    passes the request on because the namespace is empty. *)
Theorem resolve_drops_error (d : DNSLink) (host : string) (s : State)
    (e : error) :
  let reply := replyAt s host in
  freshEntry s host = None ->
  err reply = Some e ->
  resolve d host s
  = (("", "", None),
     mkState (delete host (cache s)) (clock s + took reply)
             (host :: dnsCalls s))
  /\ cache (resolve d host s).2 !! host = None
  /\ (forall h, h <> host ->
        cache (resolve d host s).2 !! h = cache s !! h)
  /\ (forall r, lookupHost r = host ->
        ServeHTTP d r s = (next_ServeHTTP r, (resolve d host s).2)).
Proof.
  intros reply Hf He.
  assert (Hr : resolve d host s
               = (("", "", None),
                  mkState (delete host (cache s)) (clock s + took reply)
                          (host :: dnsCalls s))).
  { rewrite (resolve_miss _ _ _ Hf). simpl. fold reply. now rewrite He. }
  split; [exact Hr|]. rewrite Hr. simpl.
  split; [apply lookup_delete_eq|].
  split; [intros h Hh; now apply lookup_delete_ne|].
  intros r Hh. rewrite ServeHTTP_unfold, Hh, Hr. reflexivity.
Qed.

(** C5, as the code has it.  A fresh entry is returned at once: the result
    is the entry, with no error, and the state is unchanged, so no DNS call
    was made.  After a DNS call that succeeded, the entry of the host expires
    one TTL after the clock at the write, which is the clock after the call.
    Two lookups of the host, the second one in a state that still has the
    entry the first one left and whose clock is less than one TTL after the
    first, make at most one DNS call together, provided that the DNS call of
    the first one, if it made one, did not fail. *)
Theorem resolve_cache_freshness (d : DNSLink) (host : string) (s : State) :
  let reply := replyAt s host in
  let s1 := (resolve d host s).2 in
  (forall e, freshEntry s host = Some e ->
     resolve d host s = ((namespace e, identifier e, None), s)
     /\ dnsCallsOf (resolve d host) s = 0%nat)
  /\ (freshEntry s host = None -> err reply = None ->
      clock s1 = (clock s + took reply)%Z
      /\ cache s1 !! host
         = Some (mkCachedLookup (selectLink (Links (result reply))).1
                                (selectLink (Links (result reply))).2
                                (clock s1 + CacheTTL d)))
  /\ (forall s2,
       (freshEntry s host = None -> err reply = None) ->
       cache s2 !! host = cache s1 !! host ->
       (clock s2 < clock s1 + CacheTTL d)%Z ->
       (dnsCallsOf (resolve d host) s + dnsCallsOf (resolve d host) s2 <= 1)%nat).
Proof.
  intros reply s1.
  assert (Hhit : forall s' e, freshEntry s' host = Some e ->
                   dnsCallsOf (resolve d host) s' = 0%nat).
  { intros s' e He. unfold dnsCallsOf. rewrite (resolve_hit _ _ _ _ He).
    simpl. lia. }
  assert (Hmiss : forall s', freshEntry s' host = None ->
                    dnsCallsOf (resolve d host) s' = 1%nat).
  { intros s' Hn. unfold dnsCallsOf.
    rewrite (proj1 (resolve_miss_dnsCalls _ _ _ Hn)). simpl. lia. }
  split; [|split].
  - intros e He. split; [now apply resolve_hit | now apply (Hhit _ e)].
  - intros Hf He. split; [now apply resolve_miss_dnsCalls|].
    subst s1. rewrite (resolve_miss _ _ _ Hf). simpl. fold reply. rewrite He.
    destruct (selectLink _) as [ns id]. simpl.
    now rewrite lookup_insert_eq.
  - intros s2 Hok Hc Ht.
    destruct (freshEntry s host) as [e|] eqn:Hf.
    + rewrite (Hhit _ _ Hf).
      destruct (freshEntry s2 host) eqn:Hf2;
        [rewrite (Hhit _ _ Hf2) | rewrite (Hmiss _ Hf2)]; lia.
    + rewrite (Hmiss _ Hf). specialize (Hok eq_refl).
      assert (Hf2 : exists e, freshEntry s2 host = Some e).
      { subst s1. rewrite (resolve_miss _ _ _ Hf) in Hc, Ht.
        simpl in Hc, Ht. fold reply in Hc, Ht. rewrite Hok in Hc, Ht.
        destruct (selectLink _) as [ns id]. simpl in Hc, Ht.
        rewrite lookup_insert_eq in Hc. eexists.
        apply freshEntry_Some. split; [exact Hc | exact Ht]. }
      destruct Hf2 as [e Hf2]. rewrite (Hhit _ _ Hf2). lia.
Qed.

(** C8, as the code has it.  The loop takes the first namespace in the order
    of the visit that has an entry, with the identifier of its first entry,
    and empty strings when no namespace has one; this is what [resolve]
    returns after a DNS call that succeeded.  The choice is fixed by the
    links in the order of the visit.  Two visits of the same links in
    different orders choose the same when at most one namespace has an
    entry. *)
Theorem selectLink_first_in_visit_order :
  (forall skipped rest ns e es,
     Forall noCandidate skipped ->
     selectLink (skipped ++ (ns, e :: es) :: rest) = (ns, Identifier e))
  /\ (forall links, Forall noCandidate links -> selectLink links = ("", ""))
  /\ (forall links1 links2,
       links1 ≡ₚ links2 ->
       (forall l l', In l links1 -> In l' links1 ->
                     ~ noCandidate l -> ~ noCandidate l' -> l = l') ->
       selectLink links1 = selectLink links2)
  /\ (forall d host s,
       freshEntry s host = None -> err (replyAt s host) = None ->
       (resolve d host s).1
       = (selectLink (Links (result (replyAt s host))), None)).
Proof.
  split; [intros; now apply selectLink_first|].
  split; [apply selectLink_none|].
  split; [apply selectLink_Permutation|].
  intros d host s Hf He. rewrite (resolve_miss _ _ _ Hf). simpl.
  rewrite He. now destruct (selectLink _).
Qed.

(** C9: an expired entry and a DNS call that fails.  The lookup returns the
    empty result, not the expired value; the DNS call was made; afterwards
    the cache is the old one without the entry of the host, so it has no
    entry for the host; and a lookup of the host in any state whose cache
    has no entry for it makes the DNS call again. *)
Theorem resolve_expired_then_failure (d : DNSLink) (host : string) (s : State)
    (entry : cachedLookup) (e : error) :
  let s1 := (resolve d host s).2 in
  cache s !! host = Some entry ->
  (expiresAt entry <= clock s)%Z ->
  err (replyAt s host) = Some e ->
  (resolve d host s).1 = ("", "", None)
  /\ dnsCalls s1 = host :: dnsCalls s
  /\ cache s1 = delete host (cache s)
  /\ cache s1 !! host = None
  /\ (forall s2, cache s2 !! host = None ->
        dnsCalls (resolve d host s2).2 = host :: dnsCalls s2).
Proof.
  intros s1 Hc Ht He.
  assert (Hf : freshEntry s host = None).
  { apply freshEntry_None. right. eauto. }
  subst s1. rewrite (resolve_miss _ _ _ Hf). simpl. rewrite He. simpl.
  repeat split; [apply lookup_delete_eq|].
  intros s2 Hc2. apply resolve_miss_dnsCalls.
  apply freshEntry_None. now left.
Qed.

(** C1, as the code has it: the six reference results of the path; an empty
    replacement stands for the base ["/" + namespace]; and on a match (a
    namespace that is not empty and has a proxy) the handler forwards the
    request to that proxy with this path, built from what the lookup
    returned, the replacement configured for the prefix and the path of the
    request, provided that the table does not hold the empty replacement for
    that prefix. *)
Theorem buildPath_reference_outputs :
  buildPath "swarm" "abc123" "/bzz" "/" = "/bzz/abc123/"
  /\ buildPath "swarm" "abc123" "/bzz" "/index.html" = "/bzz/abc123/index.html"
  /\ buildPath "ipfs" "QmXyz789" "" "/readme.md" = "/ipfs/QmXyz789/readme.md"
  /\ buildPath "swarm" "abc123/" "/bzz" "/index.html" = "/bzz/abc123/index.html"
  /\ buildPath "swarm" "abc123" "/bzz" "//index.html" = "/bzz/abc123//index.html"
  /\ buildPath "swarm" "abc123" "bzz" "/index.html" = "bzz/abc123/index.html"
  /\ (forall ns id path,
        buildPath ns id "" path = buildPath ns id ("/" ++ ns) path)
  /\ (forall d r s ns id proxy,
        (resolve d (lookupHost r) s).1 = (ns, id, None) ->
        ns <> "" ->
        proxies d !! ("/" ++ ns) = Some proxy ->
        Replacements d !! ("/" ++ ns) <> Some "" ->
        (ServeHTTP d r s).1
        = proxy_ServeHTTP proxy
            (mkRequest (Host r)
               (buildPath ns id (default "" (Replacements d !! ("/" ++ ns)))
                          (Path r)))).
Proof.
  repeat (split; [vm_compute; reflexivity|]).
  split.
  - intros ns id path. rewrite !buildPath_unfold. reflexivity.
  - intros d r s ns id proxy Hr Hns Hp Hrepl.
    rewrite ServeHTTP_unfold.
    destruct (resolve d (lookupHost r) s) as [[[ns' id'] e'] s'].
    simpl in Hr. injection Hr as -> -> ->. simpl.
    apply String.eqb_neq in Hns as ->. rewrite Hp. do 2 f_equal.
    rewrite newPath_unfold, buildPath_unfold. unfold baseOf.
    destruct (Replacements d !! ("/" ++ ns)) as [repl|]; simpl.
    + assert (Hne : repl <> "") by congruence.
      now apply String.eqb_neq in Hne as ->.
    + reflexivity.
Qed.

End ResolveFacts.

(** ** The handler on the fixtures *)
Section Runs.

Import Fixture.

(** C1 at the README configuration: the link [/swarm/abc123] sends the
    request for [/index.html] to the proxy of [/swarm]. *)
Lemma buildPath_reference_outputs_witness :
  (resolve swarmLink handler "example.com" start).1 = ("swarm", "abc123", None)
  /\ (ServeHTTP noPort swarmLink handler request start).1
     = proxy_ServeHTTP "varnish:8080"
         (mkRequest "example.com"
            (buildPath "swarm" "abc123" "/bzz" "/index.html")).
Proof.
  split; [vm_compute; reflexivity|].
  destruct (buildPath_reference_outputs noPort swarmLink)
    as (_ & _ & _ & _ & _ & _ & _ & H).
  apply (H handler request start "swarm" "abc123" "varnish:8080").
  - vm_compute; reflexivity.
  - discriminate.
  - vm_compute; reflexivity.
  - vm_compute; discriminate.
Defined.

(** C2 at a failing DNS call: the request is passed on. *)
Lemma ServeHTTP_fails_open_witness :
  err (failing 0 "example.com") = Some (OtherFailure "i/o timeout")
  /\ (ServeHTTP noPort failing handler request start).1
     = next_ServeHTTP request.
Proof.
  split; [reflexivity|].
  destruct (ServeHTTP_fails_open noPort failing handler request start)
    as (_ & H & _ & _).
  rewrite H; [reflexivity | vm_compute; reflexivity | discriminate].
Defined.

(** C3 at a reply without links: the empty result is cached, and the next
    request makes no DNS call. *)
Lemma resolve_negative_cache_witness :
  let s1 := (resolve noLinks handler "example.com" start).2 in
  cache s1 !! "example.com" = Some (mkCachedLookup "" "" 300000000005)
  /\ ServeHTTP noPort noLinks handler request s1 = (next_ServeHTTP request, s1).
Proof.
  intros s1.
  destruct (resolve_negative_cache noPort noLinks handler "example.com" start)
    as [H _]; [vm_compute; reflexivity|].
  destruct H as (_ & H2 & H3); [reflexivity | constructor |].
  split; [exact H2|].
  apply H3; [reflexivity | reflexivity | vm_compute; reflexivity].
Defined.

(** C3 as the specification states it fails when the collaborator reports
    "no record found", which is an error: nothing is cached, and the second
    lookup, made at once, calls DNS again. *)
Lemma no_record_is_not_cached :
  let s1 := (resolve noRecord handler "example.com" start).2 in
  let s2 := (resolve noRecord handler "example.com" s1).2 in
  err (noRecord 0 "example.com") = Some NoRecordFound
  /\ cache s1 !! "example.com" = None
  /\ (clock s1 < 0 + CacheTTL handler)%Z
  /\ dnsCalls s1 = ["example.com"]
  /\ dnsCalls s2 = ["example.com"; "example.com"].
Proof. repeat split; vm_compute; reflexivity. Qed.

(** C4 at a failing DNS call. *)
Lemma resolve_drops_error_witness :
  resolve failing handler "example.com" start
  = (("", "", None), mkState (delete "example.com" ∅) 5 ["example.com"]).
Proof.
  apply (resolve_drops_error noPort failing handler "example.com" start
           (OtherFailure "i/o timeout"));
    vm_compute; reflexivity.
Defined.

(** C4 as the specification states it fails: the DNS call returns an error
    and [resolve] returns none. *)
Lemma resolve_error_not_returned :
  err (failing 0 "example.com") = Some (OtherFailure "i/o timeout")
  /\ (resolve failing handler "example.com" start).1 = ("", "", None)
  /\ (resolve failing handler "example.com" start).1.2
     <> err (failing 0 "example.com").
Proof. repeat split; vm_compute; try reflexivity; discriminate. Qed.

(** C5 at a DNS call that succeeds: the second lookup, made at once, makes
    no further call. *)
Lemma resolve_cache_freshness_witness :
  let s1 := (resolve swarmLink handler "example.com" start).2 in
  (dnsCallsOf (resolve swarmLink handler "example.com") start
   + dnsCallsOf (resolve swarmLink handler "example.com") s1 <= 1)%nat.
Proof.
  intros s1.
  destruct (resolve_cache_freshness swarmLink handler "example.com" start)
    as (_ & _ & H).
  apply H; [reflexivity | reflexivity | vm_compute; reflexivity].
Defined.

(** C5 as the specification states it fails when the DNS call fails: two
    lookups of one host, the second at once after the first and so within
    the TTL, make two DNS calls. *)
Lemma resolve_twice_two_calls :
  let s1 := (resolve failing handler "example.com" start).2 in
  let s2 := (resolve failing handler "example.com" s1).2 in
  clock s1 = 5%Z
  /\ (clock s1 < clock s1 + CacheTTL handler)%Z
  /\ dnsCalls s2 = ["example.com"; "example.com"]
  /\ (dnsCallsOf (resolve failing handler "example.com") start
      + dnsCallsOf (resolve failing handler "example.com") s1)%nat = 2%nat.
Proof. repeat split; vm_compute; reflexivity. Qed.

(** C8 at a result with one link. *)
Lemma selectLink_first_in_visit_order_witness :
  selectLink ([("ipfs", [])] ++ ("swarm", [mkEntry "abc123"]) :: [])
  = ("swarm", "abc123").
Proof.
  apply (proj1 (selectLink_first_in_visit_order swarmLink)).
  repeat constructor.
Defined.

(** C8 as the specification states it fails: the same two links, visited
    in the two possible orders, give two different namespaces, and so do two
    lookups whose DNS replies differ in that order alone. *)
Lemma selectLink_depends_on_visit_order :
  ipfsFirst ≡ₚ swarmFirst
  /\ NoDup ipfsFirst.*1
  /\ (list_to_map ipfsFirst : gmap string (list NamespaceEntry))
     = list_to_map swarmFirst
  /\ selectLink ipfsFirst = ("ipfs", "QmXyz789")
  /\ selectLink swarmFirst = ("swarm", "abc123")
  /\ (resolve (fun _ _ => mkReply (mkResult ipfsFirst) None 5)
              handler "example.com" start).1
     = ("ipfs", "QmXyz789", None)
  /\ (resolve (fun _ _ => mkReply (mkResult swarmFirst) None 5)
              handler "example.com" start).1
     = ("swarm", "abc123", None).
Proof.
  assert (Hp : ipfsFirst ≡ₚ swarmFirst) by apply Permutation_swap.
  assert (Hd : NoDup ipfsFirst.*1).
  { apply (bool_decide_unpack _). vm_compute. exact I. }
  split; [exact Hp|]. split; [exact Hd|].
  split; [now apply list_to_map_proper|].
  repeat split; vm_compute; reflexivity.
Qed.

(** C9 at an entry that expired at time 10, looked up at time 20 while DNS
    fails. *)
Lemma resolve_expired_then_failure_witness :
  let s1 := (resolve failing handler "example.com" expired).2 in
  (resolve failing handler "example.com" expired).1 = ("", "", None)
  /\ cache s1 !! "example.com" = None
  /\ dnsCalls (resolve failing handler "example.com" s1).2
     = ["example.com"; "example.com"].
Proof.
  intros s1.
  destruct (resolve_expired_then_failure failing handler "example.com"
              expired (mkCachedLookup "swarm" "abc123" 10)
              (OtherFailure "i/o timeout"))
    as (H1 & H2 & _ & H4 & H5);
    [vm_compute; reflexivity | vm_compute; discriminate | reflexivity |].
  split; [exact H1|]. split; [exact H4|].
  fold s1 in H2. rewrite (H5 s1 H4), H2. reflexivity.
Defined.

End Runs.

(** ** More on the string helpers: any prefix *)
Section PrefixFacts.

Lemma substring_app_prefix (p s : string) :
  substring 0 (String.length p) (p ++ s) = p.
Proof.
  induction p as [|c p IH]; [now destruct s|].
  rewrite append_cons. simpl. now rewrite IH.
Qed.

Lemma substring_app_drop (p s : string) :
  substring (String.length p)
            (String.length (p ++ s) - String.length p) (p ++ s) = s.
Proof.
  induction p as [|c p IH].
  - simpl. rewrite Nat.sub_0_r. apply substring_whole.
  - rewrite append_cons. simpl. exact IH.
Qed.

Lemma HasPrefix_app (p s : string) : HasPrefix (p ++ s) p = true.
Proof.
  unfold HasPrefix. rewrite substring_app_prefix, String.eqb_refl.
  rewrite append_length, andb_true_r. apply Nat.leb_le. lia.
Qed.

Lemma TrimPrefix_app (p s : string) : TrimPrefix (p ++ s) p = s.
Proof.
  unfold TrimPrefix. rewrite HasPrefix_app. apply substring_app_drop.
Qed.

Lemma TrimPrefix_not_prefix (s p : string) :
  HasPrefix s p = false -> TrimPrefix s p = s.
Proof. unfold TrimPrefix. now intros ->. Qed.

Lemma HasPrefix_app_assoc (p a b : string) : HasPrefix (p ++ a ++ b) p = true.
Proof. apply HasPrefix_app. Qed.

End PrefixFacts.

(** ** More on the handler *)
Section HandlerFacts.

Variable SplitHostPort : string -> option (string * string).
Variable dnslinkpkg_Resolve : nat -> string -> Reply.

Abbreviation resolve := (resolve dnslinkpkg_Resolve).
Abbreviation ServeHTTP := (ServeHTTP SplitHostPort dnslinkpkg_Resolve).
Abbreviation lookupHost := (lookupHost SplitHostPort).
Abbreviation serveAll := (serveAll SplitHostPort dnslinkpkg_Resolve).
Abbreviation replyAt s host :=
  (dnslinkpkg_Resolve (List.length (dnsCalls s)) host).

(** The handler leaves the state that its lookup leaves. *)
Lemma ServeHTTP_state (d : DNSLink) (r : Request) (s : State) :
  (ServeHTTP d r s).2 = (resolve d (lookupHost r) s).2.
Proof.
  rewrite (ServeHTTP_unfold SplitHostPort).
  now destruct (resolve d (lookupHost r) s) as [[[ns id] e] s'].
Qed.

(** X1: the handler forwards to a proxy exactly when the namespace that the
    lookup returns is not empty and a proxy is configured for the prefix
    ["/" + namespace], compared as a whole; in every other case, so also for
    a link whose namespace has no proxy, the request goes to the next
    handler as it came. *)
Theorem ServeHTTP_match_iff (d : DNSLink) (r : Request) (s : State) :
  let ns := (resolve d (lookupHost r) s).1.1.1 in
  ((exists proxy r', (ServeHTTP d r s).1 = proxy_ServeHTTP proxy r')
   <-> ns <> "" /\ is_Some (proxies d !! ("/" ++ ns)))
  /\ (ns = "" \/ proxies d !! ("/" ++ ns) = None ->
      ServeHTTP d r s
      = (next_ServeHTTP r, (resolve d (lookupHost r) s).2)).
Proof.
  intros ns. subst ns. rewrite (ServeHTTP_unfold SplitHostPort).
  destruct (resolve d (lookupHost r) s) as [[[ns id] e] s']. simpl.
  destruct (String.eqb_spec ns "") as [->|Hns].
  - split; [|reflexivity]. split.
    + now intros (proxy & r' & [=]).
    + now intros [[] _].
  - destruct (proxies d !! ("/" ++ ns)) as [proxy|]; simpl.
    + split; [|now intros [?|[=]]]. split; [eauto|intros _; eauto].
    + split; [|reflexivity]. split.
      * now intros (proxy & r' & [=]).
      * now intros [_ [x [=]]].
Qed.

(** X2: a forwarded request keeps its host, goes to the proxy configured
    for the prefix of a namespace that is not empty, and has a path that
    starts with the base of that prefix (its replacement, or the prefix
    itself, ending with the separator) and ends with the path of the request
    without its first separator. *)
Theorem ServeHTTP_forwarded_path (d : DNSLink) (r r' : Request) (s : State)
    (proxy : string) :
  (ServeHTTP d r s).1 = proxy_ServeHTTP proxy r' ->
  Host r' = Host r
  /\ exists ns id middle,
       (resolve d (lookupHost r) s).1 = (ns, id, None)
       /\ ns <> ""
       /\ proxies d !! ("/" ++ ns) = Some proxy
       /\ Path r'
          = ensureSlash (default ("/" ++ ns) (Replacements d !! ("/" ++ ns)))
            ++ middle ++ TrimPrefix (Path r) "/"
       /\ HasPrefix (Path r')
            (ensureSlash (default ("/" ++ ns) (Replacements d !! ("/" ++ ns))))
          = true.
Proof.
  rewrite (ServeHTTP_unfold SplitHostPort).
  pose proof (resolve_no_error dnslinkpkg_Resolve d (lookupHost r) s) as He.
  destruct (resolve d (lookupHost r) s) as [[[ns id] e] s']. simpl in *.
  subst e. destruct (String.eqb_spec ns "") as [->|Hns]; [discriminate|].
  destruct (proxies d !! ("/" ++ ns)) as [proxy'|] eqn:Hp; [|discriminate].
  intros [= -> <-]. simpl. split; [reflexivity|].
  set (base := ensureSlash (default ("/" ++ ns) (Replacements d !! ("/" ++ ns)))).
  assert (Hpath : exists middle,
            newPath (Replacements d) ("/" ++ ns) id (Path r)
            = base ++ middle ++ TrimPrefix (Path r) "/").
  { rewrite newPath_unfold. fold base. unfold ensureSlash at 1.
    destruct (HasSuffix (base ++ id) "/"); simpl.
    - exists id. now rewrite append_assoc.
    - exists (id ++ "/"). now rewrite !append_assoc. }
  destruct Hpath as [middle Hpath]. exists ns, id, middle.
  repeat split; try assumption. rewrite Hpath. apply HasPrefix_app.
Qed.

(** X3: a lookup touches the entry of its own host only; it makes one DNS
    call, for that host, or none; and it changes nothing at all when it
    makes none. *)
Theorem resolve_frame (d : DNSLink) (host : string) (s : State) :
  let s1 := (resolve d host s).2 in
  (forall h, h <> host -> cache s1 !! h = cache s !! h)
  /\ (dnsCalls s1 = dnsCalls s \/ dnsCalls s1 = host :: dnsCalls s)
  /\ (dnsCalls s1 = dnsCalls s -> s1 = s).
Proof.
  intros s1. subst s1. destruct (freshEntry s host) as [e|] eqn:Hf.
  - rewrite (resolve_hit _ _ _ _ _ Hf). simpl. auto.
  - rewrite (resolve_miss _ _ _ _ Hf). simpl.
    assert (Hlen : forall l : list string, host :: l <> l).
    { intros l H%(f_equal List.length). simpl in H. lia. }
    destruct (err (replyAt s host)); [|destruct (selectLink _) as [ns id]];
      simpl; (split; [|split; [now right | intros H; now apply Hlen in H]]);
      intros h Hh.
    + now apply lookup_delete_ne.
    + now apply lookup_insert_ne.
Qed.

(** X4: what a lookup stored is what the next lookups return.  After a DNS
    call that succeeded, a lookup of the host in any state that has the
    stored entry and a clock less than one TTL after the write returns the
    namespace and identifier that the first lookup returned, and changes
    nothing. *)
Theorem resolve_store_then_load (d : DNSLink) (host : string) (s s2 : State) :
  let s1 := (resolve d host s).2 in
  freshEntry s host = None ->
  err (replyAt s host) = None ->
  cache s2 !! host = cache s1 !! host ->
  (clock s2 < clock s1 + CacheTTL d)%Z ->
  resolve d host s2 = ((resolve d host s).1, s2).
Proof.
  intros s1 Hf He Hc Ht. subst s1.
  rewrite (resolve_miss _ _ _ _ Hf) in *. simpl in *. rewrite He in *.
  destruct (selectLink _) as [ns id]. simpl in *.
  rewrite lookup_insert_eq in Hc.
  apply (resolve_hit dnslinkpkg_Resolve d host s2
           (mkCachedLookup ns id
              (clock s + took (replyAt s host) + CacheTTL d))).
  apply freshEntry_Some. split; assumption.
Qed.

(** A cache in which every entry has expired stays so under a TTL that is
    not positive, as long as time does not run backwards. *)
Lemma resolve_all_expired (d : DNSLink) (host : string) (s : State) :
  (CacheTTL d <= 0)%Z ->
  (0 <= took (replyAt s host))%Z ->
  (forall h e, cache s !! h = Some e -> (expiresAt e <= clock s)%Z) ->
  let s1 := (resolve d host s).2 in
  dnsCalls s1 = host :: dnsCalls s
  /\ (forall h e, cache s1 !! h = Some e -> (expiresAt e <= clock s1)%Z).
Proof.
  intros Httl Htook Hinv s1. subst s1.
  assert (Hf : freshEntry s host = None).
  { apply freshEntry_None. destruct (cache s !! host) as [e|] eqn:Hc;
      [right; eauto | now left]. }
  rewrite (resolve_miss _ _ _ _ Hf). simpl.
  destruct (err (replyAt s host)) as [x|];
    [|destruct (selectLink _) as [ns id]];
    simpl; (split; [reflexivity|]); intros h e.
  - destruct (decide (h = host)) as [->|Hne].
    + now rewrite lookup_delete_eq.
    + rewrite lookup_delete_ne by congruence.
      intros H%Hinv. lia.
  - destruct (decide (h = host)) as [->|Hne].
    + rewrite lookup_insert_eq. intros [= <-]. simpl. lia.
    + rewrite lookup_insert_ne by congruence.
      intros H%Hinv. lia.
Qed.

(** X5: a TTL that is not positive switches the cache off.  From a cache
    without a live entry, and with a clock that does not run backwards,
    every request of a sequence makes the DNS call for its host. *)
Theorem serveAll_without_cache (d : DNSLink) (requests : list (Z * Request))
    (s : State) :
  (CacheTTL d <= 0)%Z ->
  (forall n host, 0 <= took (dnslinkpkg_Resolve n host))%Z ->
  Forall (fun q => 0 <= q.1)%Z requests ->
  (forall h e, cache s !! h = Some e -> (expiresAt e <= clock s)%Z) ->
  dnsCalls (serveAll d requests s)
  = (rev (map (fun q => lookupHost q.2) requests) ++ dnsCalls s)%list.
Proof.
  intros Httl Htook Hdt. revert s.
  induction Hdt as [|[dt r] requests Hq _ IH]; intros s Hinv; [reflexivity|].
  simpl in Hq.
  change (serveAll d ((dt, r) :: requests) s)
    with (serveAll d requests (ServeHTTP d r (arrive dt s)).2).
  rewrite ServeHTTP_state.
  destruct (resolve_all_expired d (lookupHost r) (arrive dt s))
    as [Hcalls Hinv']; [exact Httl | apply Htook | |].
  { intros h e H%Hinv. simpl. lia. }
  rewrite IH by exact Hinv'. rewrite Hcalls. simpl.
  now rewrite <- app_assoc.
Qed.

End HandlerFacts.

(** ** Provision *)
Section ProvisionFacts.

Variable rpProvision : string -> option string.

(** The visit of a map meets every key once. *)
Lemma visit_NoDup (upstreams : gmap string string)
    (visit : list (string * string)) :
  visit ≡ₚ map_to_list upstreams -> NoDup visit.*1.
Proof. intros ->. apply NoDup_fst_map_to_list. Qed.

Lemma visit_In (upstreams : gmap string string)
    (visit : list (string * string)) (prefix upstream : string) :
  visit ≡ₚ map_to_list upstreams ->
  In (prefix, upstream) visit <-> upstreams !! prefix = Some upstream.
Proof.
  intros Hp. rewrite <- list_elem_of_In, Hp. apply elem_of_map_to_list.
Qed.

Lemma visit_list_to_map (upstreams : gmap string string)
    (visit : list (string * string)) :
  visit ≡ₚ map_to_list upstreams -> list_to_map visit = upstreams.
Proof.
  intros Hp. rewrite <- (list_to_map_to_list upstreams).
  apply list_to_map_proper; [|exact Hp]. now apply (visit_NoDup upstreams).
Qed.

(** When every reverse proxy provisions, the loop adds the whole visit. *)
Lemma provisionProxies_ok (visit : list (string * string))
    (proxies : gmap string string) :
  NoDup visit.*1 ->
  (forall prefix upstream,
     In (prefix, upstream) visit -> rpProvision upstream = None) ->
  provisionProxies rpProvision visit proxies = (list_to_map visit ∪ proxies, None).
Proof.
  revert proxies.
  induction visit as [|[prefix upstream] visit IH]; intros proxies Hnd Hok.
  - simpl. now rewrite (left_id_L ∅ (∪)).
  - simpl in *. apply NoDup_cons in Hnd as [Hnotin Hnd].
    rewrite (Hok prefix upstream) by now left.
    rewrite IH; [|exact Hnd|intros; apply (Hok prefix0); now right].
    f_equal. rewrite <- insert_union_l, <- insert_union_r; [reflexivity|].
    now apply not_elem_of_list_to_map_1.
Qed.

(** When the loop stops with an error, it is the error of an entry of the
    visit, and what it has added so far comes from the visit and leaves that
    entry out. *)
Lemma provisionProxies_error (visit : list (string * string))
    (proxies proxies' : gmap string string) (msg : string) :
  NoDup visit.*1 ->
  provisionProxies rpProvision visit proxies = (proxies', Some msg) ->
  (exists prefix upstream e,
     In (prefix, upstream) visit
     /\ rpProvision upstream = Some e
     /\ msg = "provisioning reverse proxy for " ++ prefix ++ ": " ++ e
     /\ (proxies !! prefix = None -> proxies' !! prefix = None))
  /\ (forall k v, proxies' !! k = Some v ->
        In (k, v) visit \/ proxies !! k = Some v).
Proof.
  revert proxies.
  induction visit as [|[prefix upstream] visit IH]; intros proxies Hnd;
    [discriminate|].
  simpl in *. apply NoDup_cons in Hnd as [Hnotin Hnd].
  destruct (rpProvision upstream) as [e|] eqn:He.
  - intros [= <- <-]. split; [|now right].
    exists prefix, upstream, e. auto.
  - intros H. destruct (IH _ Hnd H) as [(p & u & e & Hin & Hrp & Hmsg & Hp) Hl].
    split.
    + exists p, u, e. repeat split; auto. intros Hnone. apply Hp.
      rewrite lookup_insert_ne; [exact Hnone|].
      intros <-. apply Hnotin. apply list_elem_of_fmap.
      exists (prefix, u). split; [reflexivity|]. now apply list_elem_of_In.
    + intros k v Hk. destruct (Hl k v Hk) as [Hin'|Hm]; [auto|].
      destruct (decide (prefix = k)) as [<-|Hne].
      * rewrite lookup_insert_eq in Hm. injection Hm as <-. auto.
      * rewrite lookup_insert_ne in Hm by exact Hne. auto.
Qed.

(** X6: when the reverse proxy of every configured upstream provisions,
    [Provision] returns no error and leaves a proxy for exactly the
    configured prefixes, each dialing its upstream, whatever the order in
    which the map was visited; the two tables are unchanged; and a TTL of
    zero has become one minute, so that the TTL is never zero afterwards. *)
Theorem Provision_ok (visit : list (string * string)) (d : DNSLink) :
  visit ≡ₚ map_to_list (Upstreams d) ->
  (forall prefix upstream,
     Upstreams d !! prefix = Some upstream -> rpProvision upstream = None) ->
  Provision rpProvision visit d
  = (mkDNSLink (Upstreams d) (Replacements d)
       (if (CacheTTL d =? 0)%Z then 60000000000%Z else CacheTTL d)
       (Upstreams d),
     None)
  /\ CacheTTL (Provision rpProvision visit d).1 <> 0%Z.
Proof.
  intros Hp Hok.
  assert (Heq : Provision rpProvision visit d
                = (mkDNSLink (Upstreams d) (Replacements d)
                     (if (CacheTTL d =? 0)%Z then 60000000000%Z
                      else CacheTTL d)
                     (Upstreams d), None)).
  { unfold Provision.
    rewrite provisionProxies_ok.
    - rewrite (visit_list_to_map _ _ Hp), (right_id_L ∅ (∪)).
      reflexivity.
    - now apply (visit_NoDup (Upstreams d)).
    - intros prefix upstream Hin%(visit_In _ _ _ _ Hp). eauto. }
  split; [exact Heq|]. rewrite Heq. simpl.
  destruct (Z.eqb_spec (CacheTTL d) 0); [discriminate | assumption].
Qed.

(** X7: [Provision] returns an error exactly when the reverse proxy of some
    configured upstream fails to provision, whatever the order of the visit.
    The error then names a configured prefix whose reverse proxy failed,
    with the message of that failure; the handler is left without a proxy
    for that prefix, and every proxy it has is one of the configured
    ones. *)
Theorem Provision_error (visit : list (string * string)) (d : DNSLink) :
  visit ≡ₚ map_to_list (Upstreams d) ->
  ((Provision rpProvision visit d).2 <> None
   <-> exists prefix upstream,
         Upstreams d !! prefix = Some upstream
         /\ rpProvision upstream <> None)
  /\ (forall msg, (Provision rpProvision visit d).2 = Some msg ->
        (exists prefix upstream e,
           Upstreams d !! prefix = Some upstream
           /\ rpProvision upstream = Some e
           /\ msg = "provisioning reverse proxy for " ++ prefix ++ ": " ++ e
           /\ proxies (Provision rpProvision visit d).1 !! prefix = None)
        /\ (forall k v,
              proxies (Provision rpProvision visit d).1 !! k = Some v ->
              Upstreams d !! k = Some v)).
Proof.
  intros Hp. pose proof (visit_NoDup _ _ Hp) as Hnd.
  assert (Hmsg : forall msg, (Provision rpProvision visit d).2 = Some msg ->
            (exists prefix upstream e,
               Upstreams d !! prefix = Some upstream
               /\ rpProvision upstream = Some e
               /\ msg = "provisioning reverse proxy for " ++ prefix ++ ": " ++ e
               /\ proxies (Provision rpProvision visit d).1 !! prefix = None)
            /\ (forall k v,
                  proxies (Provision rpProvision visit d).1 !! k = Some v ->
                  Upstreams d !! k = Some v)).
  { intros msg. unfold Provision.
    destruct (provisionProxies rpProvision visit ∅) as [proxies' e'] eqn:Hpp.
    simpl. intros ->.
    destruct (provisionProxies_error _ _ _ _ Hnd Hpp)
      as [(prefix & upstream & e & Hin & Hrp & Hm & Hnone) Hl].
    split.
    - exists prefix, upstream, e. repeat split; auto.
      now apply (visit_In _ _ _ _ Hp).
    - intros k v Hk. destruct (Hl k v Hk) as [Hin'|Hempty].
      + now apply (visit_In _ _ _ _ Hp).
      + now rewrite lookup_empty in Hempty. }
  split; [|exact Hmsg]. split.
  - destruct (Provision rpProvision visit d).2 as [msg|] eqn:He;
      [intros _|congruence].
    destruct (Hmsg msg eq_refl) as [(prefix & upstream & e & Hu & Hrp & _) _].
    exists prefix, upstream. split; [exact Hu | congruence].
  - intros (prefix & upstream & Hu & Hrp) Hnone. apply Hrp.
    destruct (rpProvision upstream) as [e|] eqn:He; [|reflexivity].
    exfalso. revert Hnone. unfold Provision.
    destruct (provisionProxies rpProvision visit ∅) as [proxies' e'] eqn:Hpp.
    simpl. intros ->.
    apply (visit_In _ _ _ _ Hp) in Hu.
    clear Hmsg Hp Hnd. revert Hpp. generalize (∅ : gmap string string).
    induction visit as [|[p u] visit IH]; intros m; [destruct Hu|].
    simpl. destruct Hu as [[= -> ->]|Hu].
    + now rewrite He.
    + destruct (rpProvision u); [discriminate | eauto].
Qed.

End ProvisionFacts.

(** ** parseCaddyfile *)
Section CaddyfileFacts.

Variable ParseDuration : string -> Z + string.

(** Every replacement in the table is not empty and belongs to a prefix
    that has an upstream. *)
Abbreviation tablesAgree d :=
  (forall prefix replacement,
     Replacements d !! prefix = Some replacement ->
     replacement <> "" /\ is_Some (Upstreams d !! prefix)).

(** What a run of the [proxies] loop stores, when it has an argument. *)
Lemma proxyLine_stores (d : DNSLink) (e : ProxyEntry) :
  entryArgs e <> [] ->
  proxyLine d e
  = inr (mkDNSLink
           (<[entryPrefix e := entryUpstream e]> (Upstreams d))
           (if negb (String.eqb (entryReplacement e) "")
            then <[entryPrefix e := entryReplacement e]> (Replacements d)
            else Replacements d)
           (CacheTTL d) (proxies d)).
Proof.
  unfold proxyLine, entryUpstream, entryReplacement.
  destruct (entryArgs e) as [|arg2 [|arg3 more]]; [congruence| |];
    reflexivity.
Qed.

Lemma proxyLine_error (d : DNSLink) (e : ProxyEntry) :
  entryArgs e = [] -> proxyLine d e = inl ArgErr.
Proof. unfold proxyLine. now intros ->. Qed.

Lemma proxyLine_tablesAgree (d d' : DNSLink) (e : ProxyEntry) :
  tablesAgree d -> proxyLine d e = inr d' -> tablesAgree d'.
Proof.
  intros Hinv. destruct (entryArgs e) as [|a l] eqn:Ha.
  - now rewrite proxyLine_error.
  - rewrite proxyLine_stores by congruence. intros [= <-]. simpl.
    intros prefix replacement.
    destruct (String.eqb_spec (entryReplacement e) "") as [Hr|Hr]; simpl.
    + intros [Hne Hsome]%Hinv. split; [exact Hne|].
      rewrite lookup_insert_is_Some. destruct (decide (entryPrefix e = prefix));
        auto.
    + destruct (decide (entryPrefix e = prefix)) as [<-|Hne].
      * rewrite !lookup_insert_eq. intros [= <-]. split; [exact Hr | eauto].
      * rewrite !lookup_insert_ne by exact Hne. apply Hinv.
Qed.

Lemma proxiesBlock_tablesAgree (entries : list ProxyEntry) (d d' : DNSLink) :
  tablesAgree d -> proxiesBlock d entries = inr d' -> tablesAgree d'.
Proof.
  revert d. induction entries as [|e entries IH]; intros d Hinv; simpl.
  - now intros [= <-].
  - destruct (proxyLine d e) as [|d1] eqn:He; [discriminate|].
    apply IH. exact (proxyLine_tablesAgree _ _ _ Hinv He).
Qed.

Lemma subdirective_tablesAgree (sub : Subdirective) (d d' : DNSLink) :
  tablesAgree d ->
  subdirective ParseDuration d sub = inr d' ->
  tablesAgree d' /\ proxies d' = proxies d.
Proof.
  intros Hinv. unfold subdirective.
  destruct (String.eqb (subName sub) "proxies").
  - intros H. split; [exact (proxiesBlock_tablesAgree _ _ _ Hinv H)|].
    revert d Hinv H. induction (subEntries sub) as [|e entries IH];
      intros d Hinv; simpl; [now intros [= <-]|].
    destruct (proxyLine d e) as [|d1] eqn:He; [discriminate|].
    intros H. rewrite (IH d1 (proxyLine_tablesAgree _ _ _ Hinv He) H).
    destruct (entryArgs e) as [|a l] eqn:Ha.
    + now rewrite proxyLine_error in He.
    + rewrite proxyLine_stores in He by congruence. now injection He as <-.
  - destruct (String.eqb (subName sub) "cache_ttl"); [|discriminate].
    destruct (subArgs sub) as [|val args]; [discriminate|].
    destruct (ParseDuration val); [|discriminate].
    intros [= <-]. simpl. auto.
Qed.

Lemma directives_tablesAgree (blocks : list (list Subdirective))
    (d d' : DNSLink) :
  tablesAgree d ->
  directives ParseDuration d blocks = inr d' ->
  tablesAgree d' /\ proxies d' = proxies d.
Proof.
  assert (Hsubs : forall subs d d',
            tablesAgree d ->
            subdirectives ParseDuration d subs = inr d' ->
            tablesAgree d' /\ proxies d' = proxies d).
  { clear. induction subs as [|sub subs IH]; intros d d' Hinv; simpl.
    - intros [= <-]. auto.
    - destruct (subdirective ParseDuration d sub) as [|d1] eqn:Hs;
        [discriminate|].
      destruct (subdirective_tablesAgree _ _ _ Hinv Hs) as [Hinv1 Hp1].
      intros H. destruct (IH _ _ Hinv1 H) as [Hinv' Hp']. split; [exact Hinv' | congruence]. }
  revert d. induction blocks as [|subs blocks IH]; intros d Hinv; simpl.
  - intros [= <-]. auto.
  - destruct (subdirectives ParseDuration d subs) as [|d1] eqn:Hs;
      [discriminate|].
    destruct (Hsubs _ _ _ Hinv Hs) as [Hinv1 Hp1].
    intros H. destruct (IH _ Hinv1 H) as [Hinv' Hp']. split; [exact Hinv' | congruence].
Qed.

(** X8: in a handler that [parseCaddyfile] returns, no replacement is
    empty, every prefix with a replacement has an upstream, and there is no
    proxy yet: they come with [Provision]. *)
Theorem parseCaddyfile_tables (blocks : list (list Subdirective))
    (d : DNSLink) :
  parseCaddyfile ParseDuration blocks = inr d ->
  (forall prefix replacement,
     Replacements d !! prefix = Some replacement ->
     replacement <> "" /\ is_Some (Upstreams d !! prefix))
  /\ proxies d = ∅.
Proof.
  unfold parseCaddyfile. intros H.
  apply (directives_tablesAgree _ _ _) in H; [exact H|].
  simpl. intros prefix replacement. now rewrite lookup_empty.
Qed.

(** *** Which inputs are accepted *)

Lemma proxiesBlock_accepts (entries : list ProxyEntry) (d : DNSLink) :
  (exists d', proxiesBlock d entries = inr d')
  <-> forallb (fun e => negb (Nat.eqb (List.length (entryArgs e)) 0))
              entries = true.
Proof.
  revert d. induction entries as [|e entries IH]; intros d; simpl.
  - split; eauto.
  - destruct (entryArgs e) as [|a l] eqn:Ha.
    + rewrite proxyLine_error by exact Ha. simpl.
      split; [now intros [d' [=]] | discriminate].
    + rewrite proxyLine_stores by congruence. simpl. apply IH.
Qed.

Lemma subdirective_accepts (sub : Subdirective) (d : DNSLink) :
  (exists d', subdirective ParseDuration d sub = inr d')
  <-> subAccepted ParseDuration sub = true.
Proof.
  unfold subdirective, subAccepted.
  destruct (String.eqb (subName sub) "proxies");
    [apply proxiesBlock_accepts|].
  destruct (String.eqb (subName sub) "cache_ttl");
    [|split; [now intros [d' [=]] | discriminate]].
  destruct (subArgs sub) as [|val args];
    [split; [now intros [d' [=]] | discriminate]|].
  destruct (ParseDuration val);
    [split; eauto | split; [now intros [d' [=]] | discriminate]].
Qed.

Lemma subdirectives_accepts (subs : list Subdirective) (d : DNSLink) :
  (exists d', subdirectives ParseDuration d subs = inr d')
  <-> forallb (subAccepted ParseDuration) subs = true.
Proof.
  revert d. induction subs as [|sub subs IH]; intros d; simpl.
  - split; eauto.
  - rewrite andb_true_iff, <- (subdirective_accepts sub d).
    destruct (subdirective ParseDuration d sub) as [err|d1].
    + split; [now intros [d' [=]] | now intros [[d' [=]] _]].
    + rewrite <- (IH d1). split; [eauto | tauto].
Qed.

(** X9: [parseCaddyfile] returns a handler exactly when every run of a
    [proxies] loop has at least one argument after the prefix, every
    [cache_ttl] has an argument that [caddy.ParseDuration] accepts, and
    every subdirective is one of these two; otherwise it returns an error
    and no handler. *)
Theorem parseCaddyfile_accepts (blocks : list (list Subdirective)) :
  (exists d, parseCaddyfile ParseDuration blocks = inr d)
  <-> forallb (forallb (subAccepted ParseDuration)) blocks = true.
Proof.
  unfold parseCaddyfile. generalize (mkDNSLink ∅ ∅ 0 ∅).
  induction blocks as [|subs blocks IH]; intros d; simpl.
  - split; eauto.
  - rewrite andb_true_iff, <- (subdirectives_accepts subs d).
    destruct (subdirectives ParseDuration d subs) as [err|d1].
    + split; [now intros [d' [=]] | now intros [[d' [=]] _]].
    + rewrite <- (IH d1). split; [eauto | tauto].
Qed.

(** *** What the [proxies] block stores *)

Lemma HasPrefix_https_http (h : string) :
  HasPrefix ("https://" ++ h) "http://" = false.
Proof.
  unfold HasPrefix. rewrite !append_cons. reflexivity.
Qed.

(** X10: the upstream is stored without its scheme.  With or without a
    replacement before it, [https://h] is stored as [h]; [http://h] is
    stored as [h] without a leading [https://], so as [h] itself when [h]
    does not start with it; and an upstream that starts with neither scheme
    is stored as it is. *)
Theorem proxyLine_strips_scheme (d : DNSLink) (prefix h : string)
    (before : list string) :
  (List.length before <= 1)%nat ->
  let stored (upstream : string) :=
    match proxyLine d (mkProxyEntry prefix (before ++ [upstream])%list) with
    | inr d' => Upstreams d' !! prefix
    | inl _ => None
    end in
  stored ("https://" ++ h) = Some h
  /\ stored ("http://" ++ h) = Some (TrimPrefix h "https://")
  /\ (HasPrefix h "https://" = false -> stored ("http://" ++ h) = Some h)
  /\ (HasPrefix h "http://" = false -> HasPrefix h "https://" = false ->
      stored h = Some h).
Proof.
  intros Hlen stored.
  assert (Hst : forall u, stored u
                  = Some (TrimPrefix (TrimPrefix u "http://") "https://")).
  { intros u. subst stored. simpl. rewrite proxyLine_stores; simpl.
    - rewrite lookup_insert_eq. unfold entryUpstream. simpl.
      destruct before as [|b [|b' before]]; simpl in *; [reflexivity..|lia].
    - now destruct before. }
  rewrite !Hst. repeat split.
  - now rewrite (TrimPrefix_not_prefix _ _ (HasPrefix_https_http h)),
      TrimPrefix_app.
  - now rewrite TrimPrefix_app.
  - intros Hh. now rewrite TrimPrefix_app, (TrimPrefix_not_prefix _ _ Hh).
  - intros Hh Hh'.
    now rewrite (TrimPrefix_not_prefix _ _ Hh), (TrimPrefix_not_prefix _ _ Hh').
Qed.

(** X11: the tables after a [proxies] block that is accepted.  The upstream
    of a prefix is the one of the last run for that prefix.  Its replacement
    is the one of the last run for that prefix that has a replacement which
    is not empty, so that a later run without a replacement changes the
    upstream and keeps the replacement.  A prefix without such a run keeps
    what the table had.  The TTL is not touched. *)
Theorem proxiesBlock_lookup (entries : list ProxyEntry) (d d' : DNSLink)
    (prefix : string) :
  proxiesBlock d entries = inr d' ->
  Upstreams d' !! prefix
  = match last (filter (fun e => entryPrefix e = prefix) entries) with
    | Some e => Some (entryUpstream e)
    | None => Upstreams d !! prefix
    end
  /\ Replacements d' !! prefix
     = match last (filter (fun e => entryPrefix e = prefix
                                    /\ entryReplacement e <> "") entries) with
       | Some e => Some (entryReplacement e)
       | None => Replacements d !! prefix
       end
  /\ CacheTTL d' = CacheTTL d.
Proof.
  revert d. induction entries as [|e entries IH]; intros d; simpl.
  - now intros [= <-].
  - destruct (entryArgs e) as [|a l] eqn:Ha.
    + now rewrite proxyLine_error.
    + rewrite proxyLine_stores by congruence.
      intros (HU & HR & HT)%IH. simpl in *. rewrite HU, HR, HT.
      rewrite !filter_cons. repeat split.
      * destruct (decide (entryPrefix e = prefix)) as [<-|Hne].
        -- rewrite last_cons, lookup_insert_eq.
           now destruct (last _).
        -- now rewrite lookup_insert_ne.
      * destruct (String.eqb_spec (entryReplacement e) "") as [Hr|Hr]; simpl.
        -- rewrite decide_False by (intros [_ H]; now apply H).
           reflexivity.
        -- destruct (decide (entryPrefix e = prefix)) as [<-|Hne].
           ++ rewrite decide_True by (split; [reflexivity | exact Hr]).
              rewrite last_cons, lookup_insert_eq.
              match goal with
              | |- context [last ?l] => now destruct (last l)
              end.
           ++ rewrite decide_False by (intros [H _]; now apply Hne).
              now rewrite lookup_insert_ne.
Qed.

End CaddyfileFacts.

(** ** From the Caddyfile to the forwarded request *)
Section Composition.

Variable ParseDuration : string -> Z + string.
Variable rpProvision : string -> option string.
Variable SplitHostPort : string -> option (string * string).
Variable dnslinkpkg_Resolve : nat -> string -> Reply.

(** The loop of [Provision] ends without error only when every reverse
    proxy of the visit provisions. *)
Lemma provisionProxies_no_error (visit : list (string * string))
    (proxies : gmap string string) :
  (provisionProxies rpProvision visit proxies).2 = None ->
  forall prefix upstream,
    In (prefix, upstream) visit -> rpProvision upstream = None.
Proof.
  revert proxies. induction visit as [|[p u] visit IH]; intros proxies;
    [intros _ ? ? []|].
  simpl. destruct (rpProvision u) as [e|] eqn:He; [discriminate|].
  intros H prefix upstream [[= <- <-]|Hin]; [exact He | eauto].
Qed.

(** The handler after a [Provision] that returned no error. *)
Lemma Provision_no_error (visit : list (string * string)) (d d' : DNSLink) :
  visit ≡ₚ map_to_list (Upstreams d) ->
  Provision rpProvision visit d = (d', None) ->
  Upstreams d' = Upstreams d
  /\ Replacements d' = Replacements d
  /\ proxies d' = Upstreams d.
Proof.
  intros Hp. unfold Provision.
  destruct (provisionProxies rpProvision visit ∅) as [proxies' e] eqn:Hpp.
  intros [= <- ->].
  rewrite provisionProxies_ok in Hpp.
  - injection Hpp as <-. simpl.
    now rewrite (visit_list_to_map _ _ Hp), (right_id_L ∅ (∪)).
  - now apply (visit_NoDup (Upstreams d)).
  - apply (provisionProxies_no_error visit ∅). now rewrite Hpp.
Qed.

(** The path of the handler is [buildPath] for a table that holds no empty
    replacement for the prefix. *)
Lemma newPath_buildPath (replacements : gmap string string)
    (ns id path : string) :
  replacements !! ("/" ++ ns) <> Some "" ->
  newPath replacements ("/" ++ ns) id path
  = buildPath ns id (default "" (replacements !! ("/" ++ ns))) path.
Proof.
  intros Hne. rewrite newPath_unfold, buildPath_unfold. unfold baseOf.
  destruct (replacements !! ("/" ++ ns)) as [repl|]; simpl; [|reflexivity].
  assert (Hr : repl <> "") by congruence.
  now apply String.eqb_neq in Hr as ->.
Qed.

(** X12: a handler that [parseCaddyfile] returned and [Provision] accepted
    forwards a request whose lookup gives a namespace that is not empty to
    the upstream configured for ["/" + namespace], with the path that
    [buildPath] gives for the configured replacement (the empty string when
    there is none); when no upstream is configured for that prefix, the
    request goes to the next handler as it came. *)
Theorem configured_handler_forwards (blocks : list (list Subdirective))
    (visit : list (string * string)) (d d' : DNSLink) (r : Request)
    (s : State) (ns id : string) :
  parseCaddyfile ParseDuration blocks = inr d ->
  visit ≡ₚ map_to_list (Upstreams d) ->
  Provision rpProvision visit d = (d', None) ->
  (resolve dnslinkpkg_Resolve d' (lookupHost SplitHostPort r) s).1
  = (ns, id, None) ->
  ns <> "" ->
  (ServeHTTP SplitHostPort dnslinkpkg_Resolve d' r s).1
  = match Upstreams d !! ("/" ++ ns) with
    | Some upstream =>
        proxy_ServeHTTP upstream
          (mkRequest (Host r)
             (buildPath ns id (default "" (Replacements d !! ("/" ++ ns)))
                        (Path r)))
    | None => next_ServeHTTP r
    end.
Proof.
  intros Hparse Hvisit Hprov Hres Hns.
  destruct (Provision_no_error _ _ _ Hvisit Hprov) as (_ & HR & HP).
  unfold parseCaddyfile in Hparse.
  apply (directives_tablesAgree ParseDuration) in Hparse as [Hinv _];
    [|simpl; intros ? ?; now rewrite lookup_empty].
  rewrite ServeHTTP_unfold.
  destruct (resolve dnslinkpkg_Resolve d' (lookupHost SplitHostPort r) s)
    as [[[ns' id'] e'] s'].
  simpl in Hres. injection Hres as -> -> ->. simpl.
  apply String.eqb_neq in Hns as ->. rewrite HP, HR.
  destruct (Upstreams d !! ("/" ++ ns)); [|reflexivity].
  do 2 f_equal. apply newPath_buildPath.
  intros H. now apply Hinv in H as [[] _].
Qed.

End Composition.

(** ** Runs under a live entry, and the default TTL *)
Section RunFacts.

Variable ParseDuration : string -> Z + string.
Variable rpProvision : string -> option string.
Variable SplitHostPort : string -> option (string * string).
Variable dnslinkpkg_Resolve : nat -> string -> Reply.

(** X13: while the entry of a host has not expired, any number of requests
    for that host, however they are spaced, make no DNS call and leave the
    cache as it is: only the clock has moved on. *)
Theorem serveAll_cached (d : DNSLink) (requests : list (Z * Request))
    (s : State) (host : string) (entry : cachedLookup) :
  cache s !! host = Some entry ->
  Forall (fun q => (0 <= q.1)%Z /\ lookupHost SplitHostPort q.2 = host)
         requests ->
  (clock s + foldr Z.add 0 (map fst requests) < expiresAt entry)%Z ->
  serveAll SplitHostPort dnslinkpkg_Resolve d requests s
  = mkState (cache s) (clock s + foldr Z.add 0 (map fst requests))%Z (dnsCalls s).
Proof.
  intros Hc Hreq. revert s Hc.
  induction Hreq as [|[dt r] requests [Hdt Hhost] Hreq IH]; intros s Hc Ht;
    simpl in *.
  - destruct s. simpl. f_equal. lia.
  - assert (Hsum : (0 <= foldr Z.add 0 (map fst requests))%Z).
    { clear -Hreq.
      induction Hreq as [|[dt' r'] l [H _] _ IHl]; simpl in *; lia. }
    assert (Hf : freshEntry (arrive dt s) host = Some entry).
    { apply freshEntry_Some. simpl. split; [exact Hc | lia]. }
    change (serveAll SplitHostPort dnslinkpkg_Resolve d ((dt, r) :: requests) s)
      with (serveAll SplitHostPort dnslinkpkg_Resolve d requests
              (ServeHTTP SplitHostPort dnslinkpkg_Resolve d r (arrive dt s)).2).
    rewrite ServeHTTP_state, Hhost, (resolve_hit _ _ _ _ _ Hf). simpl.
    rewrite IH; simpl; [f_equal; lia | exact Hc | lia].
Qed.

(** The [proxies] block and every subdirective but [cache_ttl] leave the
    TTL as it is. *)
Lemma proxiesBlock_CacheTTL (entries : list ProxyEntry) (d d' : DNSLink) :
  proxiesBlock d entries = inr d' -> CacheTTL d' = CacheTTL d.
Proof.
  revert d. induction entries as [|e entries IH]; intros d; simpl.
  - now intros [= <-].
  - destruct (entryArgs e) as [|a l] eqn:Ha.
    + now rewrite proxyLine_error.
    + rewrite proxyLine_stores by congruence. now intros ->%IH.
Qed.

Lemma subdirectives_CacheTTL (subs : list Subdirective) (d d' : DNSLink) :
  Forall (fun sub => subName sub <> "cache_ttl") subs ->
  subdirectives ParseDuration d subs = inr d' -> CacheTTL d' = CacheTTL d.
Proof.
  intros Hsubs. revert d.
  induction Hsubs as [|sub subs Hsub _ IH]; intros d; simpl.
  - now intros [= <-].
  - destruct (subdirective ParseDuration d sub) as [err|d1] eqn:Hs;
      [discriminate|].
    intros ->%IH. revert Hs. unfold subdirective.
    destruct (String.eqb (subName sub) "proxies");
      [apply proxiesBlock_CacheTTL|].
    apply String.eqb_neq in Hsub as ->. discriminate.
Qed.

(** X14: a Caddyfile without [cache_ttl] gives a handler with a TTL of
    zero, which [Provision] turns into one minute, whether or not it then
    fails for a reverse proxy. *)
Theorem parseCaddyfile_default_CacheTTL (blocks : list (list Subdirective))
    (visit : list (string * string)) (d : DNSLink) :
  Forall (Forall (fun sub => subName sub <> "cache_ttl")) blocks ->
  parseCaddyfile ParseDuration blocks = inr d ->
  CacheTTL d = 0%Z
  /\ CacheTTL (Provision rpProvision visit d).1 = 60000000000%Z.
Proof.
  intros Hblocks Hparse.
  assert (Httl : CacheTTL d = 0%Z).
  { revert Hparse. unfold parseCaddyfile.
    change 0%Z with (CacheTTL (mkDNSLink ∅ ∅ 0 ∅)) at 2.
    generalize (mkDNSLink ∅ ∅ 0 ∅).
    induction Hblocks as [|subs blocks Hsubs _ IH]; intros d0; simpl.
    - now intros [= <-].
    - destruct (subdirectives ParseDuration d0 subs) as [err|d1] eqn:Hs;
        [discriminate|].
      intros ->%IH. exact (subdirectives_CacheTTL _ _ _ Hsubs Hs). }
  split; [exact Httl|]. unfold Provision.
  destruct (provisionProxies rpProvision visit ∅) as [proxies' e]. simpl.
  now rewrite Httl.
Qed.

End RunFacts.

(** ** The added properties on the fixtures *)
Section MoreRuns.

Import Fixture Config.

(** X1 at a link in [/ipns], for which the README configures nothing. *)
Lemma ServeHTTP_match_iff_witness :
  ServeHTTP noPort ipnsLink handler request start
  = (next_ServeHTTP request,
     (resolve ipnsLink handler "example.com" start).2).
Proof.
  apply (proj2 (ServeHTTP_match_iff noPort ipnsLink handler request start)).
  right. vm_compute. reflexivity.
Defined.

(** X2 at the link [/swarm/abc123]. *)
Lemma ServeHTTP_forwarded_path_witness :
  Host (mkRequest "example.com" "/bzz/abc123/index.html") = Host request.
Proof.
  apply (ServeHTTP_forwarded_path noPort swarmLink handler request
           (mkRequest "example.com" "/bzz/abc123/index.html") start
           "varnish:8080").
  vm_compute. reflexivity.
Defined.

(** X3 at a lookup of [example.com] next to an entry of another host. *)
Lemma resolve_frame_witness :
  cache (resolve swarmLink handler "other.org" expired).2 !! "example.com"
  = cache expired !! "example.com".
Proof.
  apply (proj1 (resolve_frame swarmLink handler "other.org" expired)).
  discriminate.
Defined.

(** X4 at a second lookup made at once. *)
Lemma resolve_store_then_load_witness :
  let s1 := (resolve swarmLink handler "example.com" start).2 in
  resolve swarmLink handler "example.com" s1 = (("swarm", "abc123", None), s1).
Proof.
  intros s1.
  apply (resolve_store_then_load swarmLink handler "example.com" start s1);
    [reflexivity | reflexivity | reflexivity | vm_compute; reflexivity].
Defined.

(** X5 at two requests, one second apart, under a TTL of -1 ns. *)
Lemma serveAll_without_cache_witness :
  dnsCalls (serveAll noPort swarmLink uncached
              [(0%Z, request); (1000000000%Z, request)] start)
  = ["example.com"; "example.com"].
Proof.
  apply (serveAll_without_cache noPort swarmLink uncached
           [(0%Z, request); (1000000000%Z, request)] start).
  - vm_compute. discriminate.
  - intros n host. vm_compute. discriminate.
  - repeat constructor; vm_compute; discriminate.
  - intros h e. vm_compute. discriminate.
Defined.

(** X6 at the handler of the README with a TTL of zero. *)
Lemma Provision_ok_witness :
  let d := mkDNSLink (Upstreams handler) (Replacements handler) 0 ∅ in
  Provision provisions (map_to_list (Upstreams handler)) d
  = (mkDNSLink (Upstreams handler) (Replacements handler) 60000000000
       (Upstreams handler), None).
Proof.
  intros d.
  apply (proj1 (Provision_ok provisions (map_to_list (Upstreams handler)) d
                  (reflexivity _) (fun _ _ _ => eq_refl))).
Defined.

(** X7 at the same handler when the reverse proxy of [ipfs:8080] fails. *)
Lemma Provision_error_witness :
  (Provision (failsFor "ipfs:8080") (map_to_list (Upstreams handler))
     handler).2 <> None.
Proof.
  apply (proj1 (Provision_error (failsFor "ipfs:8080")
                  (map_to_list (Upstreams handler)) handler (reflexivity _))).
  exists "/ipfs", "ipfs:8080". split; [vm_compute; reflexivity|].
  vm_compute. discriminate.
Defined.

(** X8 at the Caddyfile of the README. *)
Lemma parseCaddyfile_tables_witness :
  proxies (mkDNSLink (Upstreams handler) (Replacements handler)
             300000000000 ∅) = ∅.
Proof.
  apply (parseCaddyfile_tables fiveMinutes readme
           (mkDNSLink (Upstreams handler) (Replacements handler)
              300000000000 ∅)).
  vm_compute. reflexivity.
Defined.

(** X9 at the Caddyfile of the README. *)
Lemma parseCaddyfile_accepts_witness :
  exists d, parseCaddyfile fiveMinutes readme = inr d.
Proof.
  apply (proj2 (parseCaddyfile_accepts fiveMinutes readme)).
  vm_compute. reflexivity.
Defined.

(** X10 at an upstream written with its scheme, after a replacement. *)
Lemma proxyLine_strips_scheme_witness :
  match proxyLine handler
          (mkProxyEntry "/swarm" ["/bzz"; "https://varnish:8080"]) with
  | inr d' => Upstreams d' !! "/swarm"
  | inl _ => None
  end = Some "varnish:8080".
Proof.
  apply (proj1 (proxyLine_strips_scheme handler "/swarm" "varnish:8080"
                  ["/bzz"] (le_n 1))).
Defined.

(** X11 at two runs for one prefix, the second without a replacement. *)
Lemma proxiesBlock_lookup_witness :
  let entries := [ mkProxyEntry "/swarm" ["/bzz"; "varnish:8080"];
                   mkProxyEntry "/swarm" ["http://bee:1633"] ] in
  exists d',
    proxiesBlock (mkDNSLink ∅ ∅ 0 ∅) entries = inr d'
    /\ Upstreams d' !! "/swarm" = Some "bee:1633"
    /\ Replacements d' !! "/swarm" = Some "/bzz".
Proof.
  intros entries.
  destruct (proxiesBlock (mkDNSLink ∅ ∅ 0 ∅) entries) as [err|d'] eqn:Hb;
    [vm_compute in Hb; discriminate|].
  exists d'. split; [reflexivity|].
  destruct (proxiesBlock_lookup entries (mkDNSLink ∅ ∅ 0 ∅) d' "/swarm" Hb)
    as (HU & HR & _).
  split; [exact HU | exact HR].
Defined.

(** X12 at the Caddyfile of the README and the link [/swarm/abc123]. *)
Lemma configured_handler_forwards_witness :
  exists d d',
    parseCaddyfile fiveMinutes readme = inr d
    /\ Provision provisions (map_to_list (Upstreams d)) d = (d', None)
    /\ (ServeHTTP noPort swarmLink d' request start).1
       = proxy_ServeHTTP "varnish:8080"
           (mkRequest "example.com" "/bzz/abc123/index.html").
Proof.
  destruct (parseCaddyfile fiveMinutes readme) as [err|d] eqn:Hparse;
    [vm_compute in Hparse; discriminate|].
  destruct (Provision provisions (map_to_list (Upstreams d)) d)
    as [d' [msg|]] eqn:Hprov.
  { exfalso. revert Hprov. vm_compute in Hparse. injection Hparse as <-.
    vm_compute. discriminate. }
  exists d, d'. split; [reflexivity|]. split; [exact Hprov|].
  rewrite (configured_handler_forwards fiveMinutes provisions noPort swarmLink
             readme (map_to_list (Upstreams d)) d d' request start
             "swarm" "abc123" Hparse (reflexivity _) Hprov).
  - vm_compute in Hparse. injection Hparse as <-. vm_compute. reflexivity.
  - revert Hprov. vm_compute in Hparse. injection Hparse as <-.
    vm_compute. intros [= <-]. reflexivity.
  - discriminate.
Defined.

(** X13 at three requests within the five minutes of the entry that the
    first lookup stored. *)
Lemma serveAll_cached_witness :
  let s1 := (resolve swarmLink handler "example.com" start).2 in
  dnsCalls (serveAll noPort swarmLink handler
              [(1000000000%Z, request); (0%Z, request);
               (200000000000%Z, request)] s1)
  = ["example.com"].
Proof.
  intros s1.
  rewrite (serveAll_cached noPort swarmLink handler
             [(1000000000%Z, request); (0%Z, request);
              (200000000000%Z, request)] s1 "example.com"
             (mkCachedLookup "swarm" "abc123" 300000000005)).
  - reflexivity.
  - vm_compute. reflexivity.
  - repeat constructor; vm_compute; discriminate.
  - vm_compute. reflexivity.
Defined.

(** X14 at the [proxies] block of the README alone. *)
Lemma parseCaddyfile_default_CacheTTL_witness :
  let blocks := [[ mkSubdirective "proxies" []
                     [ mkProxyEntry "/swarm" ["/bzz"; "varnish:8080"] ] ]] in
  exists d,
    parseCaddyfile fiveMinutes blocks = inr d
    /\ CacheTTL (Provision provisions (map_to_list (Upstreams d)) d).1
       = 60000000000%Z.
Proof.
  intros blocks.
  destruct (parseCaddyfile fiveMinutes blocks) as [err|d] eqn:Hparse;
    [vm_compute in Hparse; discriminate|].
  exists d. split; [reflexivity|].
  apply (parseCaddyfile_default_CacheTTL fiveMinutes provisions blocks
           (map_to_list (Upstreams d)) d); [|exact Hparse].
  repeat constructor. discriminate.
Defined.

(** C1 as the specification states it fails for a table that holds the empty
    replacement for the matched prefix: the handler tests whether the prefix
    has a replacement (lines 106-109), not whether that replacement is empty,
    and so starts from the base ["/"], while [buildPath] with the empty
    replacement starts from ["/" + namespace]. *)
Lemma ServeHTTP_empty_replacement :
  let r := mkRequest "example.com" "/readme.md" in
  (resolve ipfsLink emptyReplacement (lookupHost noPort r) start).1
  = ("ipfs", "QmXyz789", None)
  /\ proxies emptyReplacement !! "/ipfs" = Some "ipfs:8080"
  /\ Replacements emptyReplacement !! "/ipfs" = Some ""
  /\ (ServeHTTP noPort ipfsLink emptyReplacement r start).1
     = proxy_ServeHTTP "ipfs:8080"
         (mkRequest "example.com" "/QmXyz789/readme.md")
  /\ buildPath "ipfs" "QmXyz789" "" "/readme.md" = "/ipfs/QmXyz789/readme.md"
  /\ ~ (forall SplitHostPort dnslinkpkg_Resolve d r s ns id proxy,
          (resolve dnslinkpkg_Resolve d (lookupHost SplitHostPort r) s).1
          = (ns, id, None) ->
          ns <> "" ->
          proxies d !! ("/" ++ ns) = Some proxy ->
          (ServeHTTP SplitHostPort dnslinkpkg_Resolve d r s).1
          = proxy_ServeHTTP proxy
              (mkRequest (Host r)
                 (buildPath ns id
                    (default "" (Replacements d !! ("/" ++ ns))) (Path r)))).
Proof.
  intros r. repeat split; try (vm_compute; reflexivity).
  intros H.
  specialize (H noPort ipfsLink emptyReplacement r start
                "ipfs" "QmXyz789" "ipfs:8080").
  vm_compute in H.
  specialize (H eq_refl ltac:(discriminate) eq_refl). discriminate.
Qed.

End MoreRuns.
